(** * Visa-expiry notification job (send_notifications.py)

    A shallow embedding of the cron script that selects the customers whose
    visa expires today (UAE time), sends each one a WhatsApp message through
    the WAHA gateway and records the attempt in the [send_logs] table.

    A Python [str] is modelled by the [string] of its UTF-8 bytes, an
    integer by [Z], the pacing delay by a rational.  Everything the script
    does to the outside world (database, gateway, clock, random numbers,
    logger) goes through an explicit state and an environment of scripted
    answers. *)

From Stdlib Require Import ZArith String Ascii List Bool Arith Lia.
From Stdlib Require Import DecimalString QArith Lqa.
Import ListNotations.

Open Scope string_scope.

(* ------------------------------------------------------------------ *)
(** ** Python string primitives used by the script *)

Module PyStr.

(** [str(n)] for an integer. *)
Definition str_int (z : Z) : string := NilZero.string_of_int (Z.to_int z).

(** [str(n)] for [len(...)]. *)
Definition str_nat (n : nat) : string := NilZero.string_of_uint (Nat.to_uint n).

(** Truth value of a string: empty is false. *)
Definition truthy (s : string) : bool := negb (s =? "").

(** The characters [str.strip()] removes are those [str.isspace] accepts:
    U+0009..U+000D, U+001C..U+0020, U+0085, U+00A0, U+1680,
    U+2000..U+200A, U+2028, U+2029, U+202F, U+205F and U+3000.  In UTF-8
    the first ten are single bytes, the next two take two bytes and the
    others three.  The lead bytes of the three groups differ, and none of
    them is a continuation byte (80..BF hex), so a whitespace character is
    recognised by the bytes it starts with. *)

(** TAB, LF, VT, FF, CR, FS, GS, RS, US and space. *)
Definition space1 (a : ascii) : bool :=
  let n := N_of_ascii a in
  ((9 <=? n) && (n <=? 13) || (28 <=? n) && (n <=? 32))%N.

(** U+0085 is C2 85 and U+00A0 is C2 A0. *)
Definition space2 (a b : ascii) : bool :=
  let n := N_of_ascii a in
  let m := N_of_ascii b in
  ((n =? 194) && ((m =? 133) || (m =? 160)))%N.

(** U+1680 is E1 9A 80; U+2000..U+200A are E2 80 80 .. E2 80 8A; U+2028,
    U+2029 and U+202F are E2 80 A8, E2 80 A9 and E2 80 AF; U+205F is
    E2 81 9F; U+3000 is E3 80 80. *)
Definition space3 (a b c : ascii) : bool :=
  let n := N_of_ascii a in
  let m := N_of_ascii b in
  let l := N_of_ascii c in
  ((n =? 225) && (m =? 154) && (l =? 128)
   || (n =? 226) && (m =? 128)
      && ((128 <=? l) && (l <=? 138) || (l =? 168) || (l =? 169) || (l =? 175))
   || (n =? 226) && (m =? 129) && (l =? 159)
   || (n =? 227) && (m =? 128) && (l =? 128))%N.

(** [s.lstrip()]: whitespace characters are dropped from the front for as
    long as there are any. *)
Fixpoint lstrip (s : string) : string :=
  match s with
  | EmptyString => s
  | String a r =>
      if space1 a then lstrip r
      else
        match r with
        | EmptyString => s
        | String b r2 =>
            if space2 a b then lstrip r2
            else
              match r2 with
              | EmptyString => s
              | String c r3 => if space3 a b c then lstrip r3 else s
              end
        end
  end.

(** Is [s] made of whitespace characters only (the empty string
    included)? *)
Fixpoint blank (s : string) : bool :=
  match s with
  | EmptyString => true
  | String a r =>
      if space1 a then blank r
      else
        match r with
        | EmptyString => false
        | String b r2 =>
            if space2 a b then blank r2
            else
              match r2 with
              | EmptyString => false
              | String c r3 => space3 a b c && blank r3
              end
        end
  end.

(** [s.rstrip()]: the whitespace characters at the end are dropped, that
    is, a byte is kept as long as what starts at it is not whitespace
    only.  (What starts in the middle of a character starts with a
    continuation byte, and is not whitespace only.) *)
Fixpoint rstrip (s : string) : string :=
  match s with
  | EmptyString => EmptyString
  | String a r => if blank s then EmptyString else String a (rstrip r)
  end.

(** [s.strip()] *)
Definition strip (s : string) : string := rstrip (lstrip s).

(** [s.replace(old, new)] for an ASCII character [old]; no byte of a
    longer UTF-8 character is an ASCII byte, so the bytes of [old] found are
    the occurrences of the character. *)
Fixpoint replace (old : ascii) (new : string) (s : string) : string :=
  match s with
  | EmptyString => EmptyString
  | String c r =>
      if Ascii.eqb c old then new ++ replace old new r
      else String c (replace old new r)
  end.

(** Keyword arguments of [str.format]. *)
Definition kwargs := list (string * string).

Fixpoint lookup (k : string) (kw : kwargs) : option string :=
  match kw with
  | [] => None
  | (k', v) :: rest => if k =? k' then Some v else lookup k rest
  end.

(** [tpl.format] with keyword arguments [kw], for templates made of
    literal text and [{name}] fields (no doubled braces, conversions or
    format specs, which FIXED_TEMPLATE does not use).  [field] is [Some acc]
    while the scan is inside a pair of braces.  [None] stands for the
    KeyError / ValueError Python raises. *)
Fixpoint format_from (kw : kwargs) (s : string) (field : option string)
  : option string :=
  match s, field with
  | EmptyString, None => Some EmptyString
  | EmptyString, Some _ => None
  | String c r, None =>
      if Ascii.eqb c "{" then format_from kw r (Some EmptyString)
      else if Ascii.eqb c "}" then None
      else option_map (String c) (format_from kw r None)
  | String c r, Some f =>
      if Ascii.eqb c "}" then
        match lookup f kw with
        | Some v => option_map (append v) (format_from kw r None)
        | None => None
        end
      else format_from kw r (Some (f ++ String c EmptyString))
  end.

Definition format (tpl : string) (kw : kwargs) : option string :=
  format_from kw tpl None.

(** [needle in s] *)
Fixpoint contains (needle s : string) : bool :=
  prefix needle s ||
  match s with
  | EmptyString => false
  | String _ r => contains needle r
  end.

End PyStr.

(* ------------------------------------------------------------------ *)
(** ** Calendar dates in the target timezone *)

Module Calendar.

Record date := mkDate { year : Z; month : Z; day : Z }.

(** Proleptic Gregorian date of a day number counted from 1970-01-01. *)
Definition date_of_days (days : Z) : date :=
  let z := (days + 719468)%Z in
  let era := (z / 146097)%Z in
  let doe := (z - era * 146097)%Z in
  let yoe := ((doe - doe / 1460 + doe / 36524 - doe / 146096) / 365)%Z in
  let doy := (doe - (365 * yoe + yoe / 4 - yoe / 100))%Z in
  let mp := ((5 * doy + 2) / 153)%Z in
  let d := (doy - (153 * mp + 2) / 5 + 1)%Z in
  let m := (if mp <? 10 then mp + 3 else mp - 9)%Z in
  let y := (yoe + era * 400 + (if m <=? 2 then 1 else 0))%Z in
  mkDate y m d.

(** Zero padding of a non-negative number to [width] digits. *)
Fixpoint zeros (n : nat) : string :=
  match n with
  | O => EmptyString
  | S k => String "0" (zeros k)
  end.

Definition pad (width : nat) (z : Z) : string :=
  let s := PyStr.str_int z in
  zeros (width - String.length s) ++ s.

(** [str(d)] and [d.strftime('%Y-%m-%d')]: ISO form YYYY-MM-DD. *)
Definition iso (d : date) : string :=
  pad 4 (year d) ++ "-" ++ pad 2 (month d) ++ "-" ++ pad 2 (day d).

(** Asia/Dubai has been at UTC+04:00, without daylight saving, since 1920. *)
Definition UAE_OFFSET : Z := 4 * 3600.

(** [datetime.now(UAE_TZ).date()] for the instant [now], in seconds since
    1970-01-01T00:00:00Z. *)
Definition uae_date (now : Z) : date :=
  date_of_days ((now + UAE_OFFSET) / 86400).

(** The date the host would report in UTC, for comparison. *)
Definition utc_date (now : Z) : date := date_of_days (now / 86400).

End Calendar.

(* ------------------------------------------------------------------ *)
(** ** Data model *)

(** A row of the query on [customers]: the six selected columns.  The two
    phone columns are nullable text ([None] is SQL NULL); the connection is
    opened without type detection, so the expiry date arrives as the stored
    text. *)
Record Customer := mkCustomer {
  id : Z;
  customer_name : string;
  visa_type : string;
  visa_expiry_date : string;
  country_code : option string;
  phone_number : option string
}.

(** The four values bound by the INSERT into [send_logs]; the row id and
    [sent_at] are filled in by the database. *)
Record SendLogEntry := mkSendLogEntry {
  log_customer_name : string;
  log_phone : string;
  log_message : string;
  log_status : string
}.

(** A Python exception, reduced to what [str(e)] shows. *)
Inductive exn := Exception (desc : string).

Definition str_exn (e : exn) : string := let 'Exception d := e in d.

(** What [requests.post] is called with, and what it gives back. *)
Record Request := mkRequest {
  url : string;
  json_chatId : string;
  json_text : string;
  json_session : string;
  headers : list (string * string);
  timeout : Z
}.

Record Response := mkResponse { status_code : Z; text : string }.

Inductive level := DEBUG | INFO | WARNING | ERROR.

(** Run counters kept by the main loop. *)
Record Counts := mkCounts {
  sent_count : nat;
  failed_count : nat;
  skipped_count : nat
}.

(** Equality of two [sqlite3.Row] values of the same query: all columns. *)
Definition opt_eqb (a b : option string) : bool :=
  match a, b with
  | None, None => true
  | Some x, Some y => x =? y
  | _, _ => false
  end.

Definition row_eqb (a b : Customer) : bool :=
  (id a =? id b)%Z && (customer_name a =? customer_name b)
  && (visa_type a =? visa_type b)
  && (visa_expiry_date a =? visa_expiry_date b)
  && opt_eqb (country_code a) (country_code b)
  && opt_eqb (phone_number a) (phone_number b).

(* ------------------------------------------------------------------ *)
(** ** The outside world *)

(** Configuration read from the process environment, and the scripted
    behaviour of everything outside the script.  Answers are indexed by the
    number of earlier calls of the same kind, so that any sequence of
    answers can be described. *)
Record Env := mkEnv {
  WAHA_URL : string;
  WAHA_API_KEY : string;
  SESSION : string;
  (** SQLite's [date(text)]; [None] is NULL *)
  sql_date : string -> option string;
  (** [sqlite3.connect]: [Some e] when it raises *)
  db_connect : option exn;
  (** the SELECT on [customers]: [Some e] when it raises *)
  db_select : option exn;
  (** the INSERT of the k-th log write: [Some e] when [cur.execute]
      raises *)
  db_insert : nat -> option exn;
  (** the commit of the k-th log write, reached when its INSERT went
      through: [Some e] when [conn.commit] raises *)
  db_commit : nat -> option exn;
  (** after an error in the k-th log write: has SQLite rolled the open
      transaction back (as it does when the disk is full or fails), or is
      it still open (as it is when the database was busy)? *)
  db_rollback : nat -> bool;
  (** the k-th POST: a response, or the exception [requests] raises *)
  http_post : nat -> Request -> Response + exn;
  (** the instant (seconds since the epoch, UTC) read by the k-th
      [datetime.now] *)
  clock : nat -> Z;
  (** the k-th [random.random()], in [0, 1) *)
  random : nat -> Q
}.

Record State := mkState {
  customers_table : list Customer;
  send_logs : list SendLogEntry;  (* the committed rows of the table *)
  pending : list SendLogEntry;    (* rows inserted on the connection of the
                                     run and not committed yet *)
  requests : list Request;        (* POSTs issued, oldest first *)
  sleeps : list Q;                (* [time.sleep] calls, oldest first *)
  logger : list (level * string); (* records handed to the logger *)
  inserts : nat;                  (* INSERT attempts so far *)
  clock_reads : nat;              (* [datetime.now] calls so far *)
  draws : nat                     (* random numbers drawn so far *)
}.

(* ------------------------------------------------------------------ *)
(** ** State and exception monad *)

Inductive result (A : Type) :=
| Ok (a : A)
| Raise (e : exn).
Arguments Ok {A} a.
Arguments Raise {A} e.

Definition M (A : Type) : Type := State -> result A * State.

Definition ret {A} (a : A) : M A := fun s => (Ok a, s).

Definition raise {A} (e : exn) : M A := fun s => (Raise e, s).

Definition bind {A B} (m : M A) (k : A -> M B) : M B :=
  fun s =>
    match m s with
    | (Ok a, s') => k a s'
    | (Raise e, s') => (Raise e, s')
    end.

(** [try: body finally: cleanup] *)
Definition finally {A} (body : M A) (cleanup : M unit) : M A :=
  fun s =>
    match body s with
    | (r, s') =>
        match cleanup s' with
        | (Ok _, s'') => (r, s'')
        | (Raise e, s'') => (Raise e, s'')
        end
    end.

(** [try: body except Exception as e: handler(e)] *)
Definition try_except {A} (body : M A) (handler : exn -> M A) : M A :=
  fun s =>
    match body s with
    | (Ok a, s') => (Ok a, s')
    | (Raise e, s') => handler e s'
    end.

Notation "x <- m ;; k" := (bind m (fun x => k))
  (at level 61, m at next level, right associativity).
Notation "m ;; k" := (bind m (fun _ => k))
  (at level 61, right associativity).

Definition modify (f : State -> State) : M unit := fun s => (Ok tt, f s).


(** [l.append(x)] *)
Definition snoc {A} (l : list A) (x : A) : list A := (l ++ [x])%list.

(** Python's loop [for x in xs: acc = body(acc, x)]. *)
Fixpoint for_each {A B} (body : B -> A -> M B) (xs : list A) (acc : B) : M B :=
  match xs with
  | [] => ret acc
  | x :: rest => acc' <- body acc x ;; for_each body rest acc'
  end.

(* ------------------------------------------------------------------ *)
(** ** Primitive effects *)

Definition with_send_logs (f : list SendLogEntry -> list SendLogEntry)
  (s : State) : State :=
  mkState (customers_table s) (f (send_logs s)) (pending s) (requests s) (sleeps s)
          (logger s) (inserts s) (clock_reads s) (draws s).

Definition with_pending (f : list SendLogEntry -> list SendLogEntry)
  (s : State) : State :=
  mkState (customers_table s) (send_logs s) (f (pending s)) (requests s) (sleeps s)
          (logger s) (inserts s) (clock_reads s) (draws s).

Definition with_requests (f : list Request -> list Request)
  (s : State) : State :=
  mkState (customers_table s) (send_logs s) (pending s) (f (requests s)) (sleeps s)
          (logger s) (inserts s) (clock_reads s) (draws s).

Definition with_sleeps (f : list Q -> list Q)
  (s : State) : State :=
  mkState (customers_table s) (send_logs s) (pending s) (requests s) (f (sleeps s))
          (logger s) (inserts s) (clock_reads s) (draws s).

Definition with_logger (f : list (level * string) -> list (level * string))
  (s : State) : State :=
  mkState (customers_table s) (send_logs s) (pending s) (requests s) (sleeps s)
          (f (logger s)) (inserts s) (clock_reads s) (draws s).

Definition with_inserts (f : nat -> nat)
  (s : State) : State :=
  mkState (customers_table s) (send_logs s) (pending s) (requests s) (sleeps s)
          (logger s) (f (inserts s)) (clock_reads s) (draws s).

Definition with_clock_reads (f : nat -> nat)
  (s : State) : State :=
  mkState (customers_table s) (send_logs s) (pending s) (requests s) (sleeps s)
          (logger s) (inserts s) (f (clock_reads s)) (draws s).

Definition with_draws (f : nat -> nat)
  (s : State) : State :=
  mkState (customers_table s) (send_logs s) (pending s) (requests s) (sleeps s)
          (logger s) (inserts s) (clock_reads s) (f (draws s)).

(** The logger is configured at level INFO: DEBUG records are dropped. *)
Definition emitted (lv : level) : bool :=
  match lv with DEBUG => false | _ => true end.

Definition logger_log (lv : level) (msg : string) : M unit :=
  modify (fun s =>
    if emitted lv then with_logger (fun l => snoc l (lv, msg)) s else s).

Definition logger_info := logger_log INFO.
Definition logger_warning := logger_log WARNING.
Definition logger_error := logger_log ERROR.
Definition logger_debug := logger_log DEBUG.

(** [datetime.now(UAE_TZ)]: the instant read from the clock. *)
Definition datetime_now (env : Env) : M Z :=
  fun s => (Ok (clock env (clock_reads s)), with_clock_reads S s).

(** [requests.post(...)]: the request goes out, then the gateway answers
    or the transport fails. *)
Definition requests_post (env : Env) (req : Request) : M Response :=
  fun s =>
    let s' := with_requests (fun l => snoc l req) s in
    match http_post env (List.length (requests s)) req with
    | inl resp => (Ok resp, s')
    | inr e => (Raise e, s')
    end.

(** [sqlite3.connect(DB_PATH)].  The open transaction belongs to the
    connection: a new connection has none, and where connecting fails there
    is no connection to have one. *)
Definition sqlite3_connect (env : Env) : M unit :=
  fun s =>
    let s' := with_pending (fun _ => []) s in
    match db_connect env with
    | None => (Ok tt, s')
    | Some e => (Raise e, s')
    end.

(** What an error in the k-th log write leaves of the open transaction. *)
Definition after_error (env : Env) (k : nat) (s : State) : State :=
  if db_rollback env k then with_pending (fun _ => []) s else s.

(** [cur.execute(INSERT INTO send_logs ...)]: the row joins the open
    transaction of the connection (the statement opens one when there is
    none); nothing is in the table before a commit. *)
Definition cur_execute_insert (env : Env) (row : SendLogEntry) : M unit :=
  fun s =>
    let k := inserts s in
    let s' := with_inserts S s in
    match db_insert env k with
    | None => (Ok tt, with_pending (fun p => snoc p row) s')
    | Some e => (Raise e, after_error env k s')
    end.

(** [conn.commit()] after INSERT number [inserts s - 1]: every row of the
    open transaction reaches the table; when the commit raises, the
    transaction stays as the database leaves it. *)
Definition conn_commit (env : Env) : M unit :=
  fun s =>
    let k := Nat.pred (inserts s) in
    match db_commit env k with
    | None =>
        (Ok tt,
         with_pending (fun _ => [])
           (with_send_logs (fun l => (l ++ pending s)%list) s))
    | Some e => (Raise e, after_error env k s)
    end.

(** [conn.close()]: rows that were never committed are lost. *)
Definition conn_close : M unit := modify (with_pending (fun _ => [])).

(** SQL equality with NULL on the left is never true. *)
Definition sql_eq (a : option string) (b : string) : bool :=
  match a with
  | Some x => x =? b
  | None => false
  end.

(** [SELECT ... FROM customers WHERE date(visa_expiry_date) = ?] *)
Definition sql_select_expiring (env : Env) (today : string)
  : M (list Customer) :=
  fun s =>
    match db_select env with
    | None =>
        (Ok (filter (fun c => sql_eq (sql_date env (visa_expiry_date c)) today)
                    (customers_table s)), s)
    | Some e => (Raise e, s)
    end.

(** [random.uniform(a, b)] is [a + (b - a) * random()]. *)
Definition random_uniform (env : Env) (a b : Q) : M Q :=
  fun s => (Ok (a + (b - a) * random env (draws s))%Q, with_draws S s).

Definition time_sleep (d : Q) : M unit :=
  modify (with_sleeps (fun l => snoc l d)).

(* ------------------------------------------------------------------ *)
(** ** The script *)

Definition FIXED_TEMPLATE : string :=
  "Dear {customer_name}, your {visa_type} visa would be expired on {visa_expiry_date}, kindly renew it. Today's date: {today_date}".

(** [get_db_connection]: [true] stands for a connection, [false] for the
    [None] returned after a failure. *)
Definition get_db_connection (env : Env) : M bool :=
  try_except
    (sqlite3_connect env ;; ret true)
    (fun e =>
       logger_error ("DATABASE CONNECTION FAILED: " ++ str_exn e) ;;
       ret false).

Definition get_waha_headers (env : Env) : list (string * string) :=
  if PyStr.truthy (WAHA_API_KEY env)
  then [("Authorization", "Bearer " ++ WAHA_API_KEY env)]
  else [].

(** The destination the gateway is addressed with. *)
Definition chat_id_of (phone_number : string) : string :=
  let phone :=
    PyStr.replace "-" "" (PyStr.replace " " "" (PyStr.replace "+" "" phone_number)) in
  phone ++ "@c.us".

Definition send_whatsapp_message (env : Env) (phone_number message : string)
  : M (bool * string) :=
  try_except
    (let chat_id := chat_id_of phone_number in
     let hdrs :=
       (get_waha_headers env ++ [("Content-Type", "application/json")])%list in
     response <- requests_post env
       (mkRequest (WAHA_URL env ++ "/api/sendText") chat_id message
                  (SESSION env) hdrs 30) ;;
     if (status_code response =? 200)%Z then
       logger_info ("Message sent successfully to " ++ phone_number) ;;
       ret (true, "sent")
     else
       let error_msg :=
         "WAHA API error: " ++ PyStr.str_int (status_code response)
         ++ " - " ++ text response in
       logger_error ("Failed to send to " ++ phone_number ++ ": " ++ error_msg) ;;
       ret (false, "failed: " ++ error_msg))
    (fun e =>
       let error_msg := "Exception sending message: " ++ str_exn e in
       logger_error ("Failed to send to " ++ phone_number ++ ": " ++ error_msg) ;;
       ret (false, "error: " ++ error_msg)).

(** [log_send_attempt]: the handler logs the error and does not roll
    back; [cur.close()] changes nothing that is modelled. *)
Definition log_send_attempt (env : Env)
  (customer_name phone message status : string) : M unit :=
  try_except
    (cur_execute_insert env
       (mkSendLogEntry customer_name phone message status) ;;
     conn_commit env)
    (fun e => logger_error ("Failed to log send attempt: " ++ str_exn e)).

(** [x or ''] for a nullable text column. *)
Definition or_empty (x : option string) : string :=
  match x with
  | Some v => if PyStr.truthy v then v else ""
  | None => ""
  end.

(** Lines 152-160: the full phone number of a row. *)
Definition full_phone_of (customer : Customer) : string :=
  let country_code := or_empty (country_code customer) in
  let phone_number := or_empty (phone_number customer) in
  let full_phone := "" in
  let full_phone :=
    if PyStr.truthy country_code then full_phone ++ PyStr.strip country_code
    else full_phone in
  let full_phone :=
    if PyStr.truthy phone_number then full_phone ++ PyStr.strip phone_number
    else full_phone in
  full_phone.

(** [FIXED_TEMPLATE.format(...)] with the four keyword arguments. *)
Definition render_message (customer_name visa_type expiry_date_str
                           today_date_str : string) : option string :=
  PyStr.format FIXED_TEMPLATE
    [("customer_name", customer_name); ("visa_type", visa_type);
     ("visa_expiry_date", expiry_date_str); ("today_date", today_date_str)].

Definition inc_sent (c : Counts) : Counts :=
  mkCounts (S (sent_count c)) (failed_count c) (skipped_count c).
Definition inc_failed (c : Counts) : Counts :=
  mkCounts (sent_count c) (S (failed_count c)) (skipped_count c).
Definition inc_skipped (c : Counts) : Counts :=
  mkCounts (sent_count c) (failed_count c) (S (skipped_count c)).

(** One iteration of the loop over [customers]. *)
Definition process_customer (env : Env) (customers : list Customer)
  (counts : Counts) (customer : Customer) : M Counts :=
  let full_phone := full_phone_of customer in
  if negb (PyStr.truthy full_phone) then
    logger_warning ("Skipping " ++ customer_name customer ++ ": No phone number") ;;
    log_send_attempt env (customer_name customer) ""
                     "No phone number available" "skipped" ;;
    ret (inc_skipped counts)
  else
    (* [str(visa_expiry_date)]; the row holds text, never a [date], so the
       [isinstance] branch does not apply *)
    let expiry_date_str := visa_expiry_date customer in
    now <- datetime_now env ;;
    let today_date_str := Calendar.iso (Calendar.uae_date now) in
    match render_message (customer_name customer) (visa_type customer)
                         expiry_date_str today_date_str with
    | None => raise (Exception "KeyError")
    | Some message =>
        logger_info ("Processing: " ++ customer_name customer
                     ++ " (" ++ full_phone ++ ")") ;;
        r <- send_whatsapp_message env full_phone message ;;
        let '(success, status) := r in
        log_send_attempt env (customer_name customer) full_phone message status ;;
        let counts := if success then inc_sent counts else inc_failed counts in
        (if negb (row_eqb customer (last customers customer)) then
           delay <- random_uniform env 6 8 ;;
           (* the text shows the delay to two decimals; DEBUG records are
              dropped, so it is never seen *)
           logger_debug "Waiting before next message..." ;;
           time_sleep delay
         else ret tt) ;;
        ret counts
    end.

Fixpoint times (c : ascii) (n : nat) : string :=
  match n with
  | O => EmptyString
  | S k => String c (times c k)
  end.

(** [main]; the result is the exit status of the process. *)
Definition main (env : Env) : M Z :=
  logger_info (times "=" 60) ;;
  logger_info "Starting automated notification process" ;;
  logger_info (times "=" 60) ;;
  now <- datetime_now env ;;
  let today_uae := Calendar.uae_date now in
  logger_info ("Today's date (UAE): " ++ Calendar.iso today_uae) ;;
  conn <- get_db_connection env ;;
  if negb conn then
    logger_error "Failed to connect to database. Exiting." ;;
    ret 1%Z
  else
    finally (try_except
      (customers <- sql_select_expiring env (Calendar.iso today_uae) ;;
       logger_info ("Found " ++ PyStr.str_nat (List.length customers)
                    ++ " customers with visas expiring today") ;;
       if (List.length customers =? 0)%nat then
         logger_info "No customers to notify. Exiting." ;;
         ret 0%Z
       else
         counts <- for_each (process_customer env customers) customers
                            (mkCounts 0 0 0) ;;
         logger_info (times "=" 60) ;;
         logger_info "Notification process completed:" ;;
         logger_info ("  - Sent: " ++ PyStr.str_nat (sent_count counts)) ;;
         logger_info ("  - Failed: " ++ PyStr.str_nat (failed_count counts)) ;;
         logger_info ("  - Skipped: " ++ PyStr.str_nat (skipped_count counts)) ;;
         logger_info (times "=" 60) ;;
         ret 0%Z)
      (fun e =>
         logger_error ("Error in main process: " ++ str_exn e) ;;
         ret 1%Z))
      conn_close.

(* ------------------------------------------------------------------ *)
(** ** What one iteration does, as pure functions of the state before it *)

(** Was the row skipped for lack of a phone number? *)
Definition skipped (c : Customer) : bool := negb (PyStr.truthy (full_phone_of c)).

(** The template with its four fields filled in. *)
Definition filled_template (name vtype expiry today : string) : string :=
  "Dear " ++ name ++ ", your " ++ vtype ++ " visa would be expired on "
  ++ expiry ++ ", kindly renew it. Today's date: " ++ today.

(** The date string the k-th clock reading gives in the UAE. *)
Definition today_at (env : Env) (k : nat) : string :=
  Calendar.iso (Calendar.uae_date (clock env k)).

Definition message_for (env : Env) (s : State) (c : Customer) : string :=
  filled_template (customer_name c) (visa_type c) (visa_expiry_date c)
                  (today_at env (clock_reads s)).

Definition request_to (env : Env) (phone_number message : string) : Request :=
  mkRequest (WAHA_URL env ++ "/api/sendText") (chat_id_of phone_number) message
            (SESSION env)
            (get_waha_headers env ++ [("Content-Type", "application/json")])%list
            30.

Definition request_for (env : Env) (s : State) (c : Customer) : Request :=
  request_to env (full_phone_of c) (message_for env s c).

(** The pair [send_whatsapp_message] returns for each gateway answer. *)
Definition outcome_of (answer : Response + exn) : bool * string :=
  match answer with
  | inl resp =>
      if (status_code resp =? 200)%Z then (true, "sent")
      else (false, "failed: WAHA API error: "
                   ++ PyStr.str_int (status_code resp) ++ " - " ++ text resp)
  | inr e => (false, "error: Exception sending message: " ++ str_exn e)
  end.

Definition answer_for (env : Env) (s : State) (c : Customer) : Response + exn :=
  http_post env (List.length (requests s)) (request_for env s c).

Definition skip_entry (c : Customer) : SendLogEntry :=
  mkSendLogEntry (customer_name c) "" "No phone number available" "skipped".

Definition entry_for (env : Env) (s : State) (c : Customer) : SendLogEntry :=
  if skipped c then skip_entry c
  else mkSendLogEntry (customer_name c) (full_phone_of c) (message_for env s c)
                      (snd (outcome_of (answer_for env s c))).

(** The error the k-th log write raises: that of its INSERT, or else that
    of its commit. *)
Definition storage_error (env : Env) (k : nat) : option exn :=
  match db_insert env k with
  | Some e => Some e
  | None => db_commit env k
  end.

(** Did the k-th log write go through, INSERT and commit? *)
Definition accepted (env : Env) (k : nat) : bool :=
  match storage_error env k with None => true | Some _ => false end.

(** The open transaction after the k-th log write has been handed [x],
    [p] being open before. *)
Definition still_open {A} (env : Env) (k : nat) (p : list A) (x : A) : list A :=
  match db_insert env k with
  | Some _ => if db_rollback env k then [] else p
  | None =>
      match db_commit env k with
      | None => []
      | Some _ => if db_rollback env k then [] else (p ++ [x])%list
      end
  end.

Definition delay_at (env : Env) (k : nat) : Q := (6 + (8 - 6) * random env k)%Q.

Definition is_last (cs : list Customer) (c : Customer) : bool :=
  row_eqb c (last cs c).

(** The rows the run selects: those of the table whose date is the UAE date
    of the first clock reading; none when the connection or the query
    fails. *)
Definition expires_on (env : Env) (today : string) (c : Customer) : bool :=
  sql_eq (sql_date env (visa_expiry_date c)) today.

Definition selected (env : Env) (s : State) : list Customer :=
  match db_connect env, db_select env with
  | None, None =>
      filter (expires_on env (today_at env (clock_reads s))) (customers_table s)
  | _, _ => []
  end.

(** What becomes of the elements [xs] handed one after the other to the
    log writes from number [k] on, [p] being in the open transaction at the
    start: those that reach the table, in the order in which they do, and
    those still in the open transaction at the end. *)
Fixpoint land {A} (env : Env) (k : nat) (p xs : list A) : list A * list A :=
  match xs with
  | [] => ([], p)
  | x :: rest =>
      let tail := land env (S k) (still_open env k p x) rest in
      ((if accepted env k then p ++ [x] else []) ++ fst tail, snd tail)%list
  end.

(** The elements that reach the table when the connection is new. *)
Definition landed {A} (env : Env) (k : nat) (xs : list A) : list A :=
  fst (land env k [] xs).

(** The rows of [xs], each with the number of the clock reading its
    iteration makes when it is not skipped; [k] is the number of the next
    reading. *)
Fixpoint dated (k : nat) (xs : list Customer) : list (Customer * nat) :=
  match xs with
  | [] => []
  | c :: rest => (c, k) :: dated (if skipped c then k else S k) rest
  end.

(** Row [r] is what the iteration on customer [fst ck] hands to the log
    writer when clock reading number [snd ck] is the next one. *)
Definition written (env : Env) (ck : Customer * nat) (r : SendLogEntry) : Prop :=
  exists s0, clock_reads s0 = snd ck /\ r = entry_for env s0 (fst ck).

(** Final state and exit status of a run. *)
Definition final (env : Env) (s : State) : State := snd (main env s).

Definition exit_status (env : Env) (s : State) : result Z := fst (main env s).

Definition gateway_record (phone_number : string) (answer : Response + exn)
  : level * string :=
  match answer with
  | inl resp =>
      if (status_code resp =? 200)%Z
      then (INFO, "Message sent successfully to " ++ phone_number)
      else (ERROR, "Failed to send to " ++ phone_number ++ ": WAHA API error: "
                   ++ PyStr.str_int (status_code resp) ++ " - " ++ text resp)
  | inr e => (ERROR, "Failed to send to " ++ phone_number
                     ++ ": Exception sending message: " ++ str_exn e)
  end.

Definition insert_records (env : Env) (k : nat) : list (level * string) :=
  match storage_error env k with
  | None => []
  | Some e => [(ERROR, "Failed to log send attempt: " ++ str_exn e)]
  end.

(** The logger records of one iteration. *)
Definition records_for (env : Env) (s : State) (c : Customer)
  : list (level * string) :=
  if skipped c then
    (WARNING, "Skipping " ++ customer_name c ++ ": No phone number")
    :: insert_records env (inserts s)
  else
    (INFO, "Processing: " ++ customer_name c ++ " (" ++ full_phone_of c ++ ")")
    :: gateway_record (full_phone_of c) (answer_for env s c)
    :: insert_records env (inserts s).

(** The state one iteration on row [c] leaves behind, field by field. *)
Definition after (env : Env) (cs : list Customer) (s : State) (c : Customer)
  : State :=
  mkState
    (customers_table s)
    (send_logs s ++ if accepted env (inserts s)
                    then pending s ++ [entry_for env s c] else [])%list
    (still_open env (inserts s) (pending s) (entry_for env s c))
    (requests s ++ if skipped c then [] else [request_for env s c])%list
    (sleeps s ++ if skipped c || is_last cs c then []
                 else [delay_at env (draws s)])%list
    (logger s ++ records_for env s c)%list
    (S (inserts s))
    (if skipped c then clock_reads s else S (clock_reads s))
    (if skipped c || is_last cs c then draws s else S (draws s)).

(** The counters one iteration leaves behind. *)
Definition counted (env : Env) (s : State) (counts : Counts) (c : Customer)
  : Counts :=
  if skipped c then inc_skipped counts
  else if fst (outcome_of (answer_for env s c)) then inc_sent counts
  else inc_failed counts.

(** The state after the loop has gone through the rows [xs] of the batch
    [cs]. *)
Definition run_from (env : Env) (cs xs : list Customer) (s : State) : State :=
  fold_left (after env cs) xs s.

Definition total (c : Counts) : nat :=
  sent_count c + failed_count c + skipped_count c.

(** Exit status of the process. *)
Definition exit_code (env : Env) : Z :=
  match db_connect env, db_select env with
  | None, None => 0
  | _, _ => 1
  end.

(** The state when the loop starts: the clock was read once, [pre] was
    logged and the connection is new. *)
Definition begun (pre : list (level * string)) (s : State) : State :=
  mkState (customers_table s) (send_logs s) [] (requests s) (sleeps s)
          (logger s ++ pre)%list (inserts s) (S (clock_reads s)) (draws s).

(** Number of rows of [xs] that get a gateway call. *)
Definition sends (xs : list Customer) : nat :=
  List.length (filter (fun c => negb (skipped c)) xs).

(** The rows of [xs] followed by a pacing delay in the batch [cs]. *)
Definition paced (cs xs : list Customer) : list Customer :=
  filter (fun c => negb (skipped c || is_last cs c)) xs.

(** What a run added to the two tables of effects. *)
Definition appended (env : Env) (s : State) : list SendLogEntry :=
  skipn (List.length (send_logs s)) (send_logs (final env s)).

Definition new_requests (env : Env) (s : State) : list Request :=
  skipn (List.length (requests s)) (requests (final env s)).

Definition new_sleeps (env : Env) (s : State) : list Q :=
  skipn (List.length (sleeps s)) (sleeps (final env s)).

(** The record an iteration logs first: the trace the logger output keeps
    of a row the loop went through. *)
Definition report (c : Customer) : level * string :=
  if skipped c
  then (WARNING, "Skipping " ++ customer_name c ++ ": No phone number")
  else (INFO, "Processing: " ++ customer_name c
              ++ " (" ++ full_phone_of c ++ ")").

(** Is a logger record such a trace?  The script logs nothing else at
    level WARNING, and no other text of level INFO starts like this. *)
Definition is_report (r : level * string) : bool :=
  match fst r with
  | WARNING => true
  | INFO => prefix "Processing: " (snd r)
  | _ => false
  end.

(** The traces in what a run logged, oldest first. *)
Definition reports (env : Env) (s : State) : list (level * string) :=
  filter is_report (skipn (List.length (logger s)) (logger (final env s))).

(** A nullable column that is NULL or the empty string. *)
Definition absent_or_empty (x : option string) : bool :=
  match x with
  | None => true
  | Some v => v =? ""
  end.

(** The destination built from the raw columns, with only the characters
    plus, space and hyphen removed. *)
Definition unstripped_destination (c : Customer) : string :=
  chat_id_of (or_empty (country_code c) ++ or_empty (phone_number c)).

(* ------------------------------------------------------------------ *)
(** ** Sample worlds *)

Module Sample.

(** In the sample worlds the stored dates are ISO dates, on which SQLite's
    [date()] is the identity. *)

(** 2024-03-09 21:30:00 UTC, which is 2024-03-10 01:30 in Dubai. *)
Definition evening : Z := 1710019800.

Definition healthy : Env :=
  mkEnv "http://localhost:3000" "" "default" (fun d => Some d) None None
        (fun _ => None) (fun _ => None) (fun _ => false)
        (fun _ _ => inl (mkResponse 200 "ok"))
        (fun _ => evening) (fun _ => 1 # 2).

(** Every INSERT into [send_logs] raises. *)
Definition locked : Env :=
  mkEnv "http://localhost:3000" "" "default" (fun d => Some d) None None
        (fun _ => Some (Exception "database is locked"))
        (fun _ => None) (fun _ => false)
        (fun _ _ => inl (mkResponse 200 "ok"))
        (fun _ => evening) (fun _ => 1 # 2).

(** The gateway times out on the first POST and answers 500 afterwards. *)
Definition flaky : Env :=
  mkEnv "http://localhost:3000" "" "default" (fun d => Some d) None None
        (fun _ => None) (fun _ => None) (fun _ => false)
        (fun k _ => match k with
                    | O => inr (Exception "Read timed out")
                    | _ => inl (mkResponse 500 "Internal Server Error")
                    end)
        (fun _ => evening) (fun _ => 1 # 2).

(** The database is busy when the first log write commits: the commit
    raises and the transaction stays open. *)
Definition busy : Env :=
  mkEnv "http://localhost:3000" "" "default" (fun d => Some d) None None
        (fun _ => None)
        (fun k => match k with
                  | O => Some (Exception "database is locked")
                  | _ => None
                  end)
        (fun _ => false)
        (fun _ _ => inl (mkResponse 200 "ok"))
        (fun _ => evening) (fun _ => 1 # 2).

(** The SELECT raises. *)
Definition no_table : Env :=
  mkEnv "http://localhost:3000" "" "default" (fun d => Some d) None
        (Some (Exception "no such table: customers"))
        (fun _ => None) (fun _ => None) (fun _ => false)
        (fun _ _ => inl (mkResponse 200 "ok"))
        (fun _ => evening) (fun _ => 1 # 2).

Definition ali : Customer :=
  mkCustomer 1 "Ali" "Employment" "2024-03-10" (Some "971") (Some "501234567").

Definition noor : Customer :=
  mkCustomer 2 "Noor" "Tourist" "2024-03-10" None (Some "").

Definition omar : Customer :=
  mkCustomer 3 "Omar" "Residence" "2024-03-10" (Some "+971 ") (Some "50-765 4321").

Definition late : Customer :=
  mkCustomer 4 "Zed" "Tourist" "2024-03-09" (Some "971") (Some "500000000").

Definition TAB : string := String (ascii_of_nat 9) "".

(** A country code stored with a trailing tab. *)
Definition tabbed : Customer :=
  mkCustomer 5 "Tia" "Tourist" "2024-03-10" (Some ("971" ++ TAB))
             (Some "501234567").

(** U+00A0, the no-break space, in UTF-8. *)
Definition NBSP : string :=
  String (ascii_of_nat 194) (String (ascii_of_nat 160) "").

(** A country code typed with a no-break space behind it. *)
Definition padded : Customer :=
  mkCustomer 6 "Pia" "Tourist" "2024-03-10" (Some ("971" ++ NBSP))
             (Some "501234567").

(** Both phone columns hold whitespace only: an ideographic space (U+3000,
    E3 80 80 in UTF-8) and a no-break space. *)
Definition hollow : Customer :=
  mkCustomer 7 "Hal" "Tourist" "2024-03-10"
             (Some (String (ascii_of_nat 227)
                      (String (ascii_of_nat 128) (String (ascii_of_nat 128) ""))))
             (Some NBSP).

Definition db (rows : list Customer) : State :=
  mkState rows [] [] [] [] [] 0 0 0.

End Sample.

(* ------------------------------------------------------------------ *)
(** ** Statements under test, as the specification words them *)

(** One log row per selected customer, whatever the outcome. *)
Definition one_row_per_candidate (env : Env) (s : State) : Prop :=
  Forall2 (fun c r => log_customer_name r = customer_name c)
          (selected env s) (appended env s).

(** A customer without any phone data is skipped, not sent to the gateway,
    and still gets a log row. *)
Definition skip_still_logged (env : Env) (s : State) (c : Customer) : Prop :=
  skipped c = true
  /\ new_requests env s = []
  /\ exists r, In r (appended env s) /\ log_customer_name r = customer_name c.

(** Every logged message is the filled-in template. *)
Definition every_message_is_template (env : Env) (s : State) : Prop :=
  Forall (fun r => exists name vtype expiry today,
                     log_message r = filled_template name vtype expiry today)
         (appended env s).

(** N - 1 pacing delays for N candidates (none for N <= 1). *)
Definition one_delay_between_candidates (env : Env) (s : State) : Prop :=
  List.length (new_sleeps env s) = (List.length (selected env s) - 1)%nat.

(** The row of a customer without a phone number has the reason as its
    status. *)
Definition reason_in_status (env : Env) (s : State) : Prop :=
  new_requests env s = []
  /\ exists r, In r (appended env s)
               /\ log_status r = "No phone number available".

(** A candidate whose log write raised a storage error has no row in the
    send log after the run; [k] is the number of its log write. *)
Definition failed_write_leaves_no_row (env : Env) (s : State) (k : nat)
  (c : Customer) : Prop :=
  storage_error env k <> None ->
  ~ exists r, In r (appended env s) /\ log_customer_name r = customer_name c.

(** The destination is built from the raw concatenation of the columns. *)
Definition destination_from_raw_columns (env : Env) (s : State) : Prop :=
  Forall2 (fun c q => json_chatId q = unstripped_destination c)
          (filter (fun c => negb (skipped c)) (selected env s))
          (new_requests env s).

(* ------------------------------------------------------------------ *)
(** ** Further notions, for the properties beyond the specification *)

(** Does character [c] occur in [s]? *)
Fixpoint has_char (c : ascii) (s : string) : bool :=
  match s with
  | EmptyString => false
  | String c' r => Ascii.eqb c' c || has_char c r
  end.

(** A nullable column that is NULL or whitespace only. *)
Definition blank_column (x : option string) : bool :=
  match x with
  | None => true
  | Some v => PyStr.blank v
  end.

(** The four shapes a status label can have. *)
Definition known_status (st : string) : bool :=
  (st =? "skipped") || (st =? "sent")
  || prefix "failed: WAHA API error: " st
  || prefix "error: Exception sending message: " st.

(** The headers of every gateway call. *)
Definition expected_headers (env : Env) : list (string * string) :=
  List.app
    (if PyStr.truthy (WAHA_API_KEY env)
     then [("Authorization", "Bearer " ++ WAHA_API_KEY env)]
     else [])
    [("Content-Type", "application/json")].

(** The counters after the loop has gone through [xs]. *)
Fixpoint loop_counts (env : Env) (cs xs : list Customer) (s : State)
  (counts : Counts) : Counts :=
  match xs with
  | [] => counts
  | x :: rest =>
      loop_counts env cs rest (after env cs s x) (counted env s counts x)
  end.

(** The logger records of the loop over [xs]. *)
Fixpoint run_records (env : Env) (cs xs : list Customer) (s : State)
  : list (level * string) :=
  match xs with
  | [] => []
  | x :: rest =>
      (records_for env s x ++ run_records env cs rest (after env cs s x))%list
  end.

(** What [main] logs before it connects. *)
Definition opening (env : Env) (s : State) : list (level * string) :=
  [(INFO, times "=" 60);
   (INFO, "Starting automated notification process");
   (INFO, times "=" 60);
   (INFO, "Today's date (UAE): " ++ today_at env (clock_reads s))].

Definition found_record (n : nat) : level * string :=
  (INFO, "Found " ++ PyStr.str_nat n ++ " customers with visas expiring today").

(** The summary at the end of a run that processed somebody. *)
Definition summary (counts : Counts) : list (level * string) :=
  [(INFO, times "=" 60);
   (INFO, "Notification process completed:");
   (INFO, "  - Sent: " ++ PyStr.str_nat (sent_count counts));
   (INFO, "  - Failed: " ++ PyStr.str_nat (failed_count counts));
   (INFO, "  - Skipped: " ++ PyStr.str_nat (skipped_count counts));
   (INFO, times "=" 60)].

(** The state in which the loop of a run starts. *)
Definition loop_start (env : Env) (s : State) : State :=
  begun (opening env s ++ [found_record (List.length (selected env s))])%list s.

(** The counters a run ends with. *)
Definition run_counts (env : Env) (s : State) : Counts :=
  loop_counts env (selected env s) (selected env s) (loop_start env s)
              (mkCounts 0 0 0).

(** What [main] logs after the opening. *)
Definition closing (env : Env) (s : State) : list (level * string) :=
  match db_connect env with
  | Some e =>
      [(ERROR, "DATABASE CONNECTION FAILED: " ++ str_exn e);
       (ERROR, "Failed to connect to database. Exiting.")]
  | None =>
      match db_select env with
      | Some e => [(ERROR, "Error in main process: " ++ str_exn e)]
      | None =>
          found_record (List.length (selected env s))
          :: match selected env s with
             | [] => [(INFO, "No customers to notify. Exiting.")]
             | cs =>
                 (run_records env cs cs (loop_start env s)
                  ++ summary (run_counts env s))%list
             end
      end
  end.

(* ------------------------------------------------------------------ *)
(** * Proofs *)

(* ------------------------------------------------------------------ *)
(** ** Strings *)

Lemma prefix_app (t b : string) : prefix t (t ++ b) = true.
Proof.
  induction t as [|c t IH]; simpl.
  - now destruct b.
  - destruct (ascii_dec c c) as [_|n]; [exact IH | now elim n].
Qed.

Lemma contains_prefix (t s : string) :
  prefix t s = true -> PyStr.contains t s = true.
Proof. intros H. destruct s; cbn [PyStr.contains]; rewrite H; reflexivity. Qed.

Lemma contains_here (t b : string) : PyStr.contains t (t ++ b) = true.
Proof. apply contains_prefix, prefix_app. Qed.

Lemma contains_app_l (t a s : string) :
  PyStr.contains t s = true -> PyStr.contains t (a ++ s) = true.
Proof.
  intros H. induction a as [|c a IH]; simpl; [exact H|].
  rewrite IH. apply orb_true_r.
Qed.

Lemma contains_mid (t a b : string) : PyStr.contains t (a ++ t ++ b) = true.
Proof. apply contains_app_l, contains_here. Qed.

Lemma append_empty_r (s : string) : s ++ "" = s.
Proof. induction s as [|c s IH]; simpl; [|rewrite IH]; reflexivity. Qed.

Lemma truthy_false (s : string) : PyStr.truthy s = false <-> s = "".
Proof.
  unfold PyStr.truthy. rewrite negb_false_iff. apply String.eqb_eq.
Qed.

Lemma render_message_eq (name vtype expiry today : string) :
  render_message name vtype expiry today
  = Some (filled_template name vtype expiry today).
Proof.
  transitivity
    (Some (filled_template name vtype expiry (today ++ ""))); [reflexivity|].
  now rewrite append_empty_r.
Qed.

(** ** Row equality *)

Lemma opt_eqb_eq (a b : option string) : opt_eqb a b = true <-> a = b.
Proof.
  destruct a as [x|], b as [y|]; simpl; try (split; congruence).
  rewrite String.eqb_eq. split; congruence.
Qed.

Lemma row_eqb_eq (a b : Customer) : row_eqb a b = true <-> a = b.
Proof.
  unfold row_eqb. rewrite !andb_true_iff, Z.eqb_eq, !String.eqb_eq, !opt_eqb_eq.
  destruct a, b; simpl. split.
  - intros [[[[[-> ->] ->] ->] ->] ->]. reflexivity.
  - intros H. injection H as -> -> -> -> -> ->. repeat split.
Qed.

(** ** The helpers, run on an arbitrary state *)

Lemma log_send_attempt_eq env name phone message status s :
  log_send_attempt env name phone message status s
  = (Ok tt,
     mkState (customers_table s)
       (send_logs s
        ++ if accepted env (inserts s)
           then pending s ++ [mkSendLogEntry name phone message status]
           else [])%list
       (still_open env (inserts s) (pending s)
          (mkSendLogEntry name phone message status))
       (requests s) (sleeps s)
       (logger s ++ insert_records env (inserts s))%list
       (S (inserts s)) (clock_reads s) (draws s)).
Proof.
  destruct s as [tbl logs pend reqs sl lg ins clk dr].
  unfold log_send_attempt, try_except, bind, cur_execute_insert, conn_commit,
    after_error, accepted, still_open, insert_records, storage_error,
    logger_error, logger_log, modify.
  cbn [inserts pending send_logs customers_table requests sleeps logger
       clock_reads draws with_inserts with_pending with_send_logs with_logger
       Nat.pred emitted snoc].
  destruct (db_insert env ins) as [e|].
  - destruct (db_rollback env ins);
      cbn [inserts pending send_logs customers_table requests sleeps logger
           clock_reads draws with_inserts with_pending with_send_logs
           with_logger snoc];
      rewrite app_nil_r; reflexivity.
  - cbn [inserts pending send_logs customers_table requests sleeps logger
         clock_reads draws with_inserts with_pending with_send_logs
         with_logger Nat.pred snoc].
    destruct (db_commit env ins) as [e|].
    + destruct (db_rollback env ins);
        cbn [inserts pending send_logs customers_table requests sleeps logger
             clock_reads draws with_inserts with_pending with_send_logs
             with_logger snoc];
        rewrite app_nil_r; reflexivity.
    + cbn [inserts pending send_logs customers_table requests sleeps logger
           clock_reads draws with_inserts with_pending with_send_logs
           with_logger snoc].
      rewrite app_nil_r. reflexivity.
Qed.

Lemma send_whatsapp_message_eq env phone message s :
  let answer :=
    http_post env (List.length (requests s)) (request_to env phone message) in
  send_whatsapp_message env phone message s
  = (Ok (outcome_of answer),
     with_logger (fun l => snoc l (gateway_record phone answer))
       (with_requests (fun l => snoc l (request_to env phone message)) s)).
Proof.
  unfold send_whatsapp_message, try_except, bind, requests_post, request_to.
  cbv zeta. 
  destruct (http_post env _ _) as [resp|e]; cbn -[append PyStr.str_int].
  - destruct (status_code resp =? 200)%Z; reflexivity.
  - reflexivity.
Qed.

Ltac state_fields :=
  unfold with_send_logs, with_pending, with_requests, with_sleeps, with_logger,
    with_inserts, with_clock_reads, with_draws, snoc;
  cbn [customers_table send_logs pending requests sleeps logger inserts
       clock_reads draws fst snd orb];
  rewrite <- ?app_assoc, ?app_nil_r;
  cbn [app].

Lemma process_customer_eq env cs counts c s :
  process_customer env cs counts c s
  = (Ok (counted env s counts c), after env cs s c).
Proof.
  unfold process_customer, after, counted, records_for, entry_for, answer_for,
    request_for, message_for, today_at, is_last.
  fold (skipped c).
  destruct (skipped c) eqn:Hskip; cbn [negb].
  - unfold bind, logger_warning, logger_log, modify. cbn [emitted].
    rewrite log_send_attempt_eq.
    unfold ret, skip_entry; state_fields. reflexivity.
  - unfold bind at 1. unfold datetime_now. rewrite render_message_eq.
    unfold bind at 1. unfold logger_info, logger_log, modify. cbn [emitted].
    unfold bind at 1. rewrite send_whatsapp_message_eq.
    state_fields.
    set (ans := http_post env _ _).
    destruct (outcome_of ans) as [success status] eqn:Hout.
    unfold bind at 1. rewrite log_send_attempt_eq.
    unfold bind, random_uniform, logger_debug, logger_log, modify, time_sleep,
      ret, delay_at.
    cbn [emitted].
    destruct (row_eqb c (last cs c)); state_fields;
      destruct success; reflexivity.
Qed.


Lemma total_counted env s counts c :
  total (counted env s counts c) = S (total counts).
Proof.
  unfold counted, total, inc_skipped, inc_sent, inc_failed.
  destruct (skipped c); [|destruct (fst _)]; cbn; lia.
Qed.

Lemma for_each_process env cs xs : forall counts s,
  exists counts',
    for_each (process_customer env cs) xs counts s
    = (Ok counts', run_from env cs xs s)
    /\ total counts' = (total counts + List.length xs)%nat.
Proof.
  induction xs as [|x xs IH]; intros counts s.
  - exists counts. split; [reflexivity | cbn; lia].
  - cbn [for_each]. unfold bind. rewrite process_customer_eq.
    destruct (IH (counted env s counts x) (after env cs s x)) as (k & -> & Hk).
    exists k. split; [reflexivity|].
    rewrite Hk, total_counted. cbn. lia.
Qed.

(** Call-by-value keeps the nested state updates flat. *)
Ltac flat_fields :=
  cbv beta iota delta
    [with_send_logs with_pending with_requests with_sleeps with_logger
     with_inserts with_clock_reads with_draws snoc begun
     customers_table send_logs pending requests sleeps logger inserts
     clock_reads draws];
  rewrite <- ?app_assoc, ?app_nil_r;
  cbn [app].

Ltac flat_fields_in H :=
  cbv beta iota delta
    [with_send_logs with_pending with_requests with_sleeps with_logger
     with_inserts with_clock_reads with_draws snoc
     customers_table send_logs pending requests sleeps logger inserts
     clock_reads draws]
    in H;
  rewrite <- ?app_assoc, ?app_nil_r in H;
  cbn [app] in H.

Lemma main_runs env s :
  exists pre recs,
    main env s
    = (Ok (exit_code env),
       with_pending (fun _ => [])
         (with_logger (fun l => (l ++ recs)%list)
            (run_from env (selected env s) (selected env s) (begun pre s)))).
Proof.
  destruct s as [tbl logs pend reqs sl lg ins clk dr].
  destruct (main env _) as [r sf] eqn:Hm.
  unfold exit_code, selected, today_at. cbn [customers_table clock_reads].
  unfold main in Hm.
  unfold bind at 1 2 3 4 in Hm.
  unfold logger_info at 1 2 3, logger_log, modify in Hm.
  cbn [emitted] in Hm. unfold datetime_now in Hm.
  unfold bind at 1 in Hm. unfold logger_info at 1, logger_log, modify in Hm.
  cbn [emitted] in Hm.
  unfold bind at 1 in Hm.
  unfold get_db_connection, try_except at 1, bind at 1, sqlite3_connect in Hm.
  destruct (db_connect env) as [e|].
  - unfold bind, logger_error, logger_log, modify, ret in Hm.
    cbn [emitted negb] in Hm. flat_fields_in Hm. rewrite <- Hm.
    cbn [run_from fold_left].
    match type of Hm with
    | context [{| logger := (lg ++ ?l)%list |}] => exists [], l
    end.
    flat_fields. reflexivity.
  - unfold ret at 1 in Hm. cbn [negb] in Hm.
    unfold finally, conn_close, try_except, sql_select_expiring, bind at 1 in Hm.
    flat_fields_in Hm.
    destruct (db_select env) as [e|].
    + unfold bind, logger_error, logger_log, modify, ret in Hm.
      cbn [emitted] in Hm. flat_fields_in Hm. rewrite <- Hm.
      cbn [run_from fold_left].
      match type of Hm with
      | context [{| logger := (lg ++ ?l)%list |}] => exists [], l
      end.
      flat_fields. reflexivity.
    + set (cs := filter _ tbl) in *.
      unfold bind at 1 in Hm. unfold logger_info at 1, logger_log, modify in Hm.
      cbn [emitted] in Hm. flat_fields_in Hm.
      destruct (List.length cs =? 0)%nat eqn:Elen.
      * apply Nat.eqb_eq, length_zero_iff_nil in Elen. rewrite Elen.
        unfold bind, logger_info, logger_log, modify, ret in Hm.
        cbn [emitted] in Hm. flat_fields_in Hm. rewrite <- Hm.
        cbn [run_from fold_left].
        match type of Hm with
        | context [{| logger := (lg ++ ?l)%list |}] => exists [], l
        end.
        flat_fields. reflexivity.
      * unfold bind at 1 in Hm.
        match type of Hm with
        | context [for_each _ cs ?k ?st] =>
            destruct (for_each_process env cs cs k st) as (k' & Hrun & _)
        end.
        rewrite Hrun in Hm.
        unfold bind, logger_info, logger_log, modify, ret in Hm.
        cbn [emitted] in Hm. flat_fields_in Hm. rewrite <- Hm.
        match type of Hm with
        | context [run_from env cs cs {| logger := (lg ++ ?l)%list |}] =>
            exists l
        end.
        match type of Hm with
        | context [(Ok _, {| logger := (_ ++ ?l)%list |})] => exists l
        end.
        flat_fields. reflexivity.
Qed.


(** ** The loop as a whole *)

Lemma run_from_app env cs xs ys s :
  run_from env cs (xs ++ ys) s = run_from env cs ys (run_from env cs xs s).
Proof. apply fold_left_app. Qed.

Lemma run_from_cons env cs x xs s :
  run_from env cs (x :: xs) s = run_from env cs xs (after env cs s x).
Proof. reflexivity. Qed.

Lemma run_from_nil env cs s : run_from env cs [] s = s.
Proof. reflexivity. Qed.

Lemma run_table env cs xs : forall s,
  customers_table (run_from env cs xs s) = customers_table s.
Proof.
  induction xs as [|x xs IH]; intros s; [reflexivity|].
  rewrite run_from_cons. now rewrite IH.
Qed.

Lemma run_inserts env cs xs : forall s,
  inserts (run_from env cs xs s) = (inserts s + List.length xs)%nat.
Proof.
  induction xs as [|x xs IH];
    intros s; rewrite ?run_from_cons, ?run_from_nil; cbn [List.length].
  - lia.
  - rewrite IH. cbn [after inserts]. lia.
Qed.

Lemma run_requests_length env cs xs : forall s,
  List.length (requests (run_from env cs xs s))
  = (List.length (requests s) + sends xs)%nat.
Proof.
  unfold sends.
  induction xs as [|x xs IH];
    intros s; rewrite ?run_from_cons, ?run_from_nil; cbn [filter].
  - cbn. lia.
  - rewrite IH. cbn [after requests].
    rewrite length_app. destruct (skipped x); cbn; lia.
Qed.

Lemma run_clock_reads env cs xs : forall s,
  clock_reads (run_from env cs xs s) = (clock_reads s + sends xs)%nat.
Proof.
  unfold sends.
  induction xs as [|x xs IH];
    intros s; rewrite ?run_from_cons, ?run_from_nil; cbn [filter].
  - cbn. lia.
  - rewrite IH. cbn [after clock_reads].
    destruct (skipped x); cbn; lia.
Qed.

(** ** Rows on their way to the table *)

Lemma still_open_Forall2 {A B} (R : A -> B -> Prop) env k p q x y :
  Forall2 R p q -> R x y ->
  Forall2 R (still_open env k p x) (still_open env k q y).
Proof.
  intros Hp Hx. unfold still_open.
  destruct (db_insert env k); [destruct (db_rollback env k); auto|].
  destruct (db_commit env k); [|constructor].
  destruct (db_rollback env k); [constructor|].
  apply Forall2_app; [exact Hp | now constructor].
Qed.

Lemma still_open_map {A B} (f : A -> B) env k p x :
  still_open env k (map f p) (f x) = map f (still_open env k p x).
Proof.
  unfold still_open.
  destruct (db_insert env k); [now destruct (db_rollback env k)|].
  destruct (db_commit env k); [|reflexivity].
  destruct (db_rollback env k); [reflexivity|]. now rewrite map_app.
Qed.

Lemma still_open_In {A} env k (p : list A) x y :
  In y (still_open env k p x) -> In y p \/ y = x.
Proof.
  unfold still_open.
  destruct (db_insert env k);
    [destruct (db_rollback env k); cbn; tauto|].
  destruct (db_commit env k); [|cbn; tauto].
  destruct (db_rollback env k); [cbn; tauto|].
  rewrite in_app_iff. cbn. intuition.
Qed.

Lemma still_open_accepted {A} env k (p : list A) x :
  accepted env k = true -> still_open env k p x = [].
Proof.
  unfold accepted, storage_error, still_open.
  destruct (db_insert env k); [discriminate|].
  now destruct (db_commit env k).
Qed.

Lemma land_cons {A} env k p (x : A) rest :
  land env k p (x :: rest)
  = (((if accepted env k then p ++ [x] else [])
      ++ fst (land env (S k) (still_open env k p x) rest))%list,
     snd (land env (S k) (still_open env k p x) rest)).
Proof. reflexivity. Qed.

Lemma land_app {A} env (xs ys : list A) : forall k p,
  land env k p (xs ++ ys)
  = ((fst (land env k p xs)
      ++ fst (land env (k + List.length xs) (snd (land env k p xs)) ys))%list,
     snd (land env (k + List.length xs) (snd (land env k p xs)) ys)).
Proof.
  induction xs as [|x xs IH]; intros k p.
  - cbn [app land List.length fst snd]. rewrite Nat.add_0_r.
    now destruct (land env k p ys).
  - cbn [app List.length]. rewrite !land_cons, IH. cbn [fst snd].
    rewrite <- app_assoc.
    replace (S k + List.length xs)%nat with (k + S (List.length xs))%nat by lia.
    reflexivity.
Qed.

Lemma land_map {A B} (f : A -> B) env xs : forall k p,
  land env k (map f p) (map f xs)
  = (map f (fst (land env k p xs)), map f (snd (land env k p xs))).
Proof.
  induction xs as [|x xs IH]; intros k p; [reflexivity|].
  cbn [map]. rewrite !land_cons. cbn [fst snd].
  rewrite still_open_map, IH. cbn [fst snd]. rewrite map_app.
  destruct (accepted env k); [|reflexivity].
  now rewrite map_app.
Qed.

Lemma land_In {A} env (xs : list A) : forall k p y,
  In y (fst (land env k p xs)) \/ In y (snd (land env k p xs)) ->
  In y p \/ In y xs.
Proof.
  induction xs as [|x xs IH]; intros k p y.
  - cbn. tauto.
  - rewrite land_cons. cbn [fst snd]. rewrite in_app_iff.
    intros [[H|H]|H].
    + destruct (accepted env k); [|contradiction].
      apply in_app_iff in H. cbn in *. intuition.
    + destruct (IH _ _ _ (or_introl H)) as [H'|H']; [|cbn; tauto].
      apply still_open_In in H'. cbn. intuition.
    + destruct (IH _ _ _ (or_intror H)) as [H'|H']; [|cbn; tauto].
      apply still_open_In in H'. cbn. intuition.
Qed.

Lemma landed_incl {A} env k (xs : list A) y :
  In y (landed env k xs) -> In y xs.
Proof.
  intros H. destruct (land_In env xs k [] y (or_introl H)) as [[]|H'].
  exact H'.
Qed.

Lemma land_all {A} env (xs : list A) :
  (forall k, accepted env k = true) ->
  forall k, land env k [] xs = (xs, []).
Proof.
  intros Hok. induction xs as [|x xs IH]; intros k; [reflexivity|].
  rewrite land_cons, still_open_accepted, IH, Hok by apply Hok.
  reflexivity.
Qed.

Lemma landed_all {A} env k (xs : list A) :
  (forall j, accepted env j = true) -> landed env k xs = xs.
Proof. intros Hok. unfold landed. now rewrite land_all. Qed.

Lemma land_length {A} env (xs : list A) : forall k p,
  (List.length (fst (land env k p xs)) + List.length (snd (land env k p xs))
   <= List.length p + List.length xs)%nat.
Proof.
  induction xs as [|x xs IH]; intros k p; [cbn; lia|].
  rewrite land_cons. cbn [fst snd List.length]. rewrite length_app.
  specialize (IH (S k) (still_open env k p x)).
  unfold still_open, accepted, storage_error in *.
  destruct (db_insert env k); [destruct (db_rollback env k); cbn in *; lia|].
  destruct (db_commit env k).
  - destruct (db_rollback env k); rewrite ?length_app in *; cbn in *; lia.
  - rewrite length_app. cbn in *. lia.
Qed.

Lemma dated_fst xs : forall k, map fst (dated k xs) = xs.
Proof.
  induction xs as [|x xs IH]; intros k; [reflexivity|].
  cbn [dated map fst]. now rewrite IH.
Qed.

Lemma dated_app xs ys : forall k,
  dated k (xs ++ ys) = (dated k xs ++ dated (k + sends xs) ys)%list.
Proof.
  unfold sends.
  induction xs as [|x xs IH]; intros k; cbn [dated app filter].
  - cbn. now rewrite Nat.add_0_r.
  - rewrite IH. destruct (skipped x); cbn [negb List.length]; [reflexivity|].
    do 3 f_equal. lia.
Qed.

Lemma run_send_logs_app env cs xs : forall s,
  exists rows, send_logs (run_from env cs xs s) = (send_logs s ++ rows)%list.
Proof.
  induction xs as [|x xs IH];
    intros s; rewrite ?run_from_cons, ?run_from_nil.
  - exists []. now rewrite app_nil_r.
  - destruct (IH (after env cs s x)) as (rows & ->).
    cbn [after send_logs]. rewrite <- app_assoc. eauto.
Qed.

Lemma run_send_logs env cs xs : forall s pc,
  Forall2 (written env) pc (pending s) ->
  exists rows,
    send_logs (run_from env cs xs s) = (send_logs s ++ rows)%list
    /\ Forall2 (written env)
         (fst (land env (inserts s) pc (dated (clock_reads s) xs))) rows
    /\ Forall2 (written env)
         (snd (land env (inserts s) pc (dated (clock_reads s) xs)))
         (pending (run_from env cs xs s)).
Proof.
  induction xs as [|x xs IH];
    intros s pc Hp; rewrite ?run_from_cons, ?run_from_nil.
  - exists []. cbn [dated land fst snd]. split; [now rewrite app_nil_r|].
    split; [constructor | exact Hp].
  - assert (Hx : written env (x, clock_reads s) (entry_for env s x))
      by (exists s; split; reflexivity).
    destruct (IH (after env cs s x)
                (still_open env (inserts s) pc (x, clock_reads s)))
      as (rows & -> & HF & HP).
    { cbn [after pending]. now apply still_open_Forall2. }
    cbn [after send_logs inserts clock_reads] in *.
    cbn [dated]. rewrite land_cons. cbn [fst snd].
    exists ((if accepted env (inserts s)
             then pending s ++ [entry_for env s x] else []) ++ rows)%list.
    split; [now rewrite <- app_assoc|]. split; [|exact HP].
    apply Forall2_app; [|exact HF].
    destruct (accepted env (inserts s)); [|constructor].
    apply Forall2_app; [exact Hp | now constructor].
Qed.

Lemma run_requests env cs xs : forall s,
  exists reqs,
    requests (run_from env cs xs s) = (requests s ++ reqs)%list
    /\ Forall2 (fun c q => exists s0, q = request_for env s0 c)
               (filter (fun c => negb (skipped c)) xs) reqs.
Proof.
  induction xs as [|x xs IH];
    intros s; rewrite ?run_from_cons, ?run_from_nil; cbn [filter].
  - exists []. split; [now rewrite app_nil_r | constructor].
  - destruct (IH (after env cs s x)) as (reqs & -> & HF).
    cbn [after requests].
    destruct (skipped x); cbn [negb].
    + exists reqs. split; [now rewrite app_nil_r | exact HF].
    + exists (request_for env s x :: reqs). split.
      * now rewrite <- app_assoc.
      * constructor; [now exists s | exact HF].
Qed.

Lemma run_sleeps env cs xs : forall s,
  exists ds,
    sleeps (run_from env cs xs s) = (sleeps s ++ ds)%list
    /\ Forall2 (fun c d => exists k, d = delay_at env k) (paced cs xs) ds.
Proof.
  unfold paced.
  induction xs as [|x xs IH];
    intros s; rewrite ?run_from_cons, ?run_from_nil; cbn [filter].
  - exists []. split; [now rewrite app_nil_r | constructor].
  - destruct (IH (after env cs s x)) as (ds & -> & HF).
    cbn [after sleeps].
    destruct (skipped x || is_last cs x); cbn [negb].
    + exists ds. split; [now rewrite app_nil_r | exact HF].
    + exists (delay_at env (draws s) :: ds). split.
      * now rewrite <- app_assoc.
      * constructor; [now exists (draws s) | exact HF].
Qed.

Lemma run_logger env cs xs : forall s,
  exists recs, logger (run_from env cs xs s) = (logger s ++ recs)%list.
Proof.
  induction xs as [|x xs IH];
    intros s; rewrite ?run_from_cons, ?run_from_nil.
  - exists []. now rewrite app_nil_r.
  - destruct (IH (after env cs s x)) as (recs & ->).
    cbn [after logger]. rewrite <- app_assoc. eauto.
Qed.

(** ** A whole run, through [main] *)

Lemma final_fields env s :
  exists pre,
    let s2 := run_from env (selected env s) (selected env s) (begun pre s) in
    send_logs (final env s) = send_logs s2
    /\ requests (final env s) = requests s2
    /\ sleeps (final env s) = sleeps s2
    /\ inserts (final env s) = inserts s2
    /\ customers_table (final env s) = customers_table s2
    /\ (exists recs, logger (final env s) = (logger s2 ++ recs)%list)
    /\ exit_status env s = Ok (exit_code env).
Proof.
  destruct (main_runs env s) as (pre & recs & H).
  exists pre. unfold final, exit_status. rewrite H. cbn.
  repeat split; try reflexivity. now exists recs.
Qed.

Lemma final_pending env s : pending (final env s) = [].
Proof.
  destruct (main_runs env s) as (pre & recs & H).
  unfold final. rewrite H. reflexivity.
Qed.


Lemma skipn_length_app {A} (a b : list A) : skipn (List.length a) (a ++ b) = b.
Proof. induction a as [|x a IH]; [reflexivity | exact IH]. Qed.

Lemma Forall2_map_fst {A B C} (R : A -> C -> Prop) (S : A * B -> C -> Prop)
  (xs : list (A * B)) (ys : list C) :
  (forall x y, S x y -> R (fst x) y) ->
  Forall2 S xs ys -> Forall2 R (map fst xs) ys.
Proof.
  intros HRS. induction 1 as [|x y xs ys H _ IH]; cbn [map]; constructor; auto.
Qed.

(** The rows a run appends, each with the customer it was written for and
    the clock reading of that customer's iteration. *)
Lemma appended_dated env s :
  Forall2 (written env)
          (landed env (inserts s) (dated (S (clock_reads s)) (selected env s)))
          (appended env s).
Proof.
  destruct (final_fields env s) as (pre & Hlogs & _).
  destruct (run_send_logs env (selected env s) (selected env s) (begun pre s) [])
    as (rows & Hrows & HF & _); [constructor|].
  unfold appended, landed. rewrite Hlogs, Hrows.
  cbn [begun send_logs inserts clock_reads] in *.
  now rewrite skipn_length_app.
Qed.

Lemma landed_dated env k j xs :
  map fst (landed env k (dated j xs)) = landed env k xs.
Proof.
  unfold landed.
  pose proof (land_map (@fst Customer nat) env (dated j xs) k []) as H.
  cbn [map] in H. rewrite dated_fst in H. now rewrite H.
Qed.

Lemma appended_rows env s :
  Forall2 (fun c r => exists s0, r = entry_for env s0 c)
          (landed env (inserts s) (selected env s)) (appended env s).
Proof.
  rewrite <- (landed_dated env (inserts s) (S (clock_reads s)) (selected env s)).
  eapply Forall2_map_fst; [|apply appended_dated]. cbv beta.
  intros ck r (s0 & _ & ->). now exists s0.
Qed.

Lemma new_requests_rows env s :
  Forall2 (fun c q => exists s0, q = request_for env s0 c)
          (filter (fun c => negb (skipped c)) (selected env s))
          (new_requests env s).
Proof.
  destruct (final_fields env s) as (pre & _ & Hreq & _).
  destruct (run_requests env (selected env s) (selected env s) (begun pre s))
    as (reqs & Hreqs & HF).
  unfold new_requests. rewrite Hreq, Hreqs. cbn [begun requests].
  now rewrite skipn_length_app.
Qed.

Lemma new_sleeps_rows env s :
  Forall2 (fun c d => exists k, d = delay_at env k)
          (paced (selected env s) (selected env s)) (new_sleeps env s).
Proof.
  destruct (final_fields env s) as (pre & _ & _ & Hsl & _).
  destruct (run_sleeps env (selected env s) (selected env s) (begun pre s))
    as (ds & Hds & HF).
  unfold new_sleeps. rewrite Hsl, Hds. cbn [begun sleeps].
  now rewrite skipn_length_app.
Qed.

Lemma final_inserts env s :
  inserts (final env s) = (inserts s + List.length (selected env s))%nat.
Proof.
  destruct (final_fields env s) as (pre & _ & _ & _ & Hins & _).
  cbv zeta in Hins. now rewrite Hins, run_inserts.
Qed.

Lemma final_exit env s : exit_status env s = Ok (exit_code env).
Proof. now destruct (final_fields env s) as (pre & _ & _ & _ & _ & _ & _ & H). Qed.

Lemma Forall2_Forall_r {A B} (R : A -> B -> Prop) (P : B -> Prop) xs ys :
  Forall2 R xs ys -> (forall x y, In x xs -> R x y -> P y) -> Forall P ys.
Proof.
  induction 1 as [|x y xs ys HR _ IH]; intros H; constructor.
  - apply (H x y); [now left | exact HR].
  - apply IH. intros x' y' Hin. apply H. now right.
Qed.

Lemma selected_spec env s c :
  In c (selected env s)
  <-> db_connect env = None /\ db_select env = None
      /\ In c (customers_table s)
      /\ sql_date env (visa_expiry_date c) = Some (today_at env (clock_reads s)).
Proof.
  unfold selected, expires_on, sql_eq.
  destruct (db_connect env) as [e|]; [cbn; split; [tauto | now intros [? _]]|].
  destruct (db_select env) as [e|]; [cbn; split; [tauto | now intros (_ & ? & _)]|].
  rewrite filter_In. split.
  - intros [Hin H]. destruct (sql_date env _) as [d|]; [|discriminate].
    apply String.eqb_eq in H. subst. auto.
  - intros (_ & _ & Hin & ->). split; [exact Hin | apply String.eqb_refl].
Qed.

Lemma strip_empty : PyStr.strip "" = "".
Proof. reflexivity. Qed.

Lemma full_phone_of_eq c :
  full_phone_of c
  = PyStr.strip (or_empty (country_code c)) ++ PyStr.strip (or_empty (phone_number c)).
Proof.
  unfold full_phone_of.
  destruct (PyStr.truthy (or_empty (country_code c))) eqn:Hc;
    destruct (PyStr.truthy (or_empty (phone_number c))) eqn:Hp;
    try (apply truthy_false in Hc; rewrite Hc);
    try (apply truthy_false in Hp; rewrite Hp);
    rewrite ?strip_empty; cbn [append];
    rewrite ?append_empty_r; reflexivity.
Qed.


(** ** The log output of a run *)

Lemma for_each_counts env cs xs : forall counts s,
  for_each (process_customer env cs) xs counts s
  = (Ok (loop_counts env cs xs s counts), run_from env cs xs s).
Proof.
  induction xs as [|x xs IH]; intros counts s; [reflexivity|].
  cbn [for_each loop_counts]. unfold bind.
  now rewrite process_customer_eq, IH, run_from_cons.
Qed.

Lemma run_logger_eq env cs xs : forall s,
  logger (run_from env cs xs s) = (logger s ++ run_records env cs xs s)%list.
Proof.
  induction xs as [|x xs IH]; intros s; cbn [run_records].
  - now rewrite run_from_nil, app_nil_r.
  - rewrite run_from_cons, IH. cbn [after logger]. now rewrite app_assoc.
Qed.

Lemma logger_with_logger f s : logger (with_logger f s) = f (logger s).
Proof. reflexivity. Qed.

Lemma logger_with_pending f s : logger (with_pending f s) = logger s.
Proof. reflexivity. Qed.

Lemma main_logger env s :
  logger (final env s) = (logger s ++ opening env s ++ closing env s)%list.
Proof.
  unfold final, closing, run_counts, loop_start, opening, found_record, summary,
    selected, today_at, expires_on.
  destruct s as [tbl logs pend reqs sl lg ins clk dr].
  destruct (main env _) as [r sf] eqn:Hm.
  cbn [snd customers_table clock_reads logger].
  unfold main in Hm.
  unfold bind at 1 2 3 4 in Hm.
  unfold logger_info at 1 2 3, logger_log, modify in Hm.
  cbn [emitted] in Hm. unfold datetime_now in Hm.
  unfold bind at 1 in Hm. unfold logger_info at 1, logger_log, modify in Hm.
  cbn [emitted] in Hm.
  unfold bind at 1 in Hm.
  unfold get_db_connection, try_except at 1, bind at 1, sqlite3_connect in Hm.
  destruct (db_connect env) as [e|].
  - unfold bind, logger_error, logger_log, modify, ret in Hm.
    cbn [emitted negb] in Hm. flat_fields_in Hm.
    injection Hm as _ <-. reflexivity.
  - unfold ret at 1 in Hm. cbn [negb] in Hm.
    match type of Hm with
    | context [finally ?b _ ?st] => destruct (b st) as [r' s'] eqn:Hb
    end.
    unfold finally in Hm. rewrite Hb in Hm. unfold conn_close, modify in Hm.
    apply (f_equal snd) in Hm. cbn [snd] in Hm. rewrite <- Hm.
    rewrite logger_with_pending. clear Hm.
    unfold try_except, sql_select_expiring, bind at 1 in Hb. flat_fields_in Hb.
    destruct (db_select env) as [e|].
    + unfold bind, logger_error, logger_log, modify, ret in Hb.
      cbn [emitted] in Hb. flat_fields_in Hb.
      injection Hb as _ <-. reflexivity.
    + remember (filter _ tbl) as cs eqn:Ecs.
      unfold bind at 1 in Hb. unfold logger_info at 1, logger_log, modify in Hb.
      cbn [emitted] in Hb. flat_fields_in Hb.
      destruct cs as [|c0 cs'].
      * cbn [List.length Nat.eqb] in Hb.
        unfold bind, logger_info, logger_log, modify, ret in Hb.
        cbn [emitted] in Hb. flat_fields_in Hb.
        injection Hb as _ <-. reflexivity.
      * cbn [List.length Nat.eqb] in Hb. unfold bind at 1 in Hb.
        rewrite for_each_counts in Hb.
        unfold bind, logger_info, logger_log, modify, ret in Hb.
        cbn [emitted] in Hb.
        apply (f_equal snd) in Hb. cbn [snd] in Hb. rewrite <- Hb.
        rewrite !logger_with_logger. cbv beta. unfold snoc.
        rewrite run_logger_eq. cbn [logger]. rewrite <- !app_assoc.
        reflexivity.
Qed.


(* ------------------------------------------------------------------ *)
(** ** Gateway client *)

(** C3. Whatever the gateway does with a call, [send_whatsapp_message]
    returns normally: on HTTP 200 the status label is "sent"; on any other
    HTTP status the label differs from "sent" and contains the status code
    and the response body; on an exception of the transport the label
    differs from "sent" and contains the description of the exception. *)
Theorem gateway_status_classification env phone_number message s :
  let out := fst (send_whatsapp_message env phone_number message s) in
  match http_post env (List.length (requests s))
                  (request_to env phone_number message) with
  | inl resp =>
      if (status_code resp =? 200)%Z then out = Ok (true, "sent")
      else exists status,
          out = Ok (false, status) /\ status <> "sent"
          /\ PyStr.contains (PyStr.str_int (status_code resp)) status = true
          /\ PyStr.contains (text resp) status = true
  | inr e =>
      exists status,
        out = Ok (false, status) /\ status <> "sent"
        /\ PyStr.contains (str_exn e) status = true
  end.
Proof.
  cbv zeta. rewrite send_whatsapp_message_eq. cbn [fst].
  destruct (http_post env _ _) as [resp|e]; cbn [outcome_of].
  - destruct (status_code resp =? 200)%Z; [reflexivity|].
    eexists. split; [reflexivity|]. split; [discriminate|]. split.
    + apply (contains_mid _ "failed: WAHA API error: ").
    + apply (contains_app_l _ "failed: WAHA API error: ").
      apply contains_app_l.
      apply (contains_app_l _ " - ").
      rewrite <- (append_empty_r (text resp)) at 2. apply contains_here.
  - eexists. split; [reflexivity|]. split; [discriminate|].
    apply (contains_app_l _ "error: Exception sending message: ").
    rewrite <- (append_empty_r (str_exn e)) at 2. apply contains_here.
Qed.

(* ------------------------------------------------------------------ *)
(** ** The send log *)

Lemma entry_for_name env s c :
  log_customer_name (entry_for env s c) = customer_name c.
Proof. unfold entry_for. now destruct (skipped c). Qed.

Lemma Forall2_In_l {A B} (R : A -> B -> Prop) xs ys x :
  Forall2 R xs ys -> In x xs -> exists y, In y ys /\ R x y.
Proof.
  induction 1 as [|a b xs ys H _ IH]; intros Hin; [contradiction|].
  destruct Hin as [->|Hin]; [exists b; split; [now left | exact H]|].
  destruct (IH Hin) as (y & Hy & HR). exists y. split; [now right | exact HR].
Qed.

Lemma accepted_no_error env :
  (forall k, storage_error env k = None) -> forall k, accepted env k = true.
Proof. intros H k. unfold accepted. now rewrite H. Qed.

Lemma land_none {A} env k (xs : list A) :
  (forall j, (k <= j)%nat -> accepted env j = false) ->
  forall p i, (k <= i)%nat -> fst (land env i p xs) = [].
Proof.
  intros Hno. induction xs as [|x xs IH]; intros p i Hi; [reflexivity|].
  rewrite land_cons. cbn [fst]. rewrite (Hno i Hi), IH by lia. reflexivity.
Qed.

(** C1, as stated, fails: when the database refuses the INSERT, the run
    selects Ali and appends no row for him. *)
Lemma one_row_per_candidate_fails :
  ~ one_row_per_candidate Sample.locked (Sample.db [Sample.ali]).
Proof.
  unfold one_row_per_candidate.
  replace (selected Sample.locked (Sample.db [Sample.ali])) with [Sample.ali]
    by reflexivity.
  replace (appended Sample.locked (Sample.db [Sample.ali])) with (@nil SendLogEntry)
    by (vm_compute; reflexivity).
  intros H. inversion H.
Qed.

(** C1, amended. The log writer is called once for every selected customer,
    skipped, sent or failed, and is handed one row for that customer.  A
    call whose INSERT and commit both go through appends that row to the
    send log, behind the rows an earlier failed commit left in the open
    transaction; a call whose INSERT or commit raises appends nothing.  So
    the rows a run appends are, in order, the rows of the customers in
    [landed]: at most one row per selected customer, and exactly one row per
    selected customer when no log write raises a storage error.  Nothing is
    left uncommitted on the connection when the run ends. *)
Theorem log_rows_follow_committed_writes env s :
  (forall name phone message status s0,
      exists s1,
        log_send_attempt env name phone message status s0 = (Ok tt, s1)
        /\ inserts s1 = S (inserts s0)
        /\ send_logs s1
           = (send_logs s0
              ++ if accepted env (inserts s0)
                 then pending s0 ++ [mkSendLogEntry name phone message status]
                 else [])%list
        /\ pending s1
           = still_open env (inserts s0) (pending s0)
               (mkSendLogEntry name phone message status))
  /\ inserts (final env s) = (inserts s + List.length (selected env s))%nat
  /\ Forall2 (fun c r => log_customer_name r = customer_name c
                         /\ exists s0, r = entry_for env s0 c)
             (landed env (inserts s) (selected env s)) (appended env s)
  /\ (List.length (appended env s) <= List.length (selected env s))%nat
  /\ pending (final env s) = []
  /\ ((forall k, storage_error env k = None) -> one_row_per_candidate env s).
Proof.
  pose proof (appended_rows env s) as HF.
  split; [|split; [|split; [|split; [|split]]]].
  - intros name phone message status s0. rewrite log_send_attempt_eq.
    eexists. split; [reflexivity|]. repeat split.
  - apply final_inserts.
  - eapply Forall2_impl; [|exact HF]. cbv beta.
    intros c r (s0 & ->). split; [apply entry_for_name | now exists s0].
  - rewrite <- (Forall2_length HF). unfold landed.
    pose proof (land_length env (selected env s) (inserts s) []) as H.
    cbn [List.length] in H. lia.
  - apply final_pending.
  - intros Hok. unfold one_row_per_candidate.
    rewrite landed_all in HF by now apply accepted_no_error.
    eapply Forall2_impl; [|exact HF]. cbv beta.
    intros c r (s0 & ->). apply entry_for_name.
Qed.

Lemma log_rows_follow_committed_writes_witness :
  one_row_per_candidate Sample.healthy
    (Sample.db [Sample.noor; Sample.ali; Sample.late]).
Proof.
  apply (log_rows_follow_committed_writes Sample.healthy
           (Sample.db [Sample.noor; Sample.ali; Sample.late])).
  intros k. reflexivity.
Defined.

(** C10, as stated, fails in its last part: the database is busy when the
    row written for Ali is committed, the error is swallowed and the row
    stays in the open transaction; the commit of the next log write, for
    Omar, then writes both rows, so the send log does hold a row for the
    customer whose log write failed. *)
Lemma failed_write_leaves_no_row_fails :
  ~ failed_write_leaves_no_row Sample.busy
      (Sample.db [Sample.ali; Sample.omar]) 0 Sample.ali.
Proof.
  intros H. apply H; [vm_compute; discriminate|].
  assert (E : map log_customer_name
                (appended Sample.busy (Sample.db [Sample.ali; Sample.omar]))
              = ["Ali"; "Omar"]) by (vm_compute; reflexivity).
  destruct (appended Sample.busy (Sample.db [Sample.ali; Sample.omar]))
    as [|r rows]; [discriminate E|].
  exists r. split; [now left|]. now injection E.
Qed.

(** C10, amended. When the log write for one selected customer raises a
    storage error, the log writer logs the error at level ERROR, returns
    normally and leaves the committed rows as they were; the run is not
    aborted (exit status 0) and every later customer still reaches its own
    log write.  What becomes of the row depends on where the error struck.
    When the INSERT raised, the row never joins the transaction, and the
    rows the run appends are those of the other customers.  When the commit
    raised, the row stays in the open transaction unless the database rolled
    it back: it is written by the next log write that goes through, together
    with that write's own row, and it is lost when the run ends before any
    log write goes through. *)
Theorem storage_error_is_swallowed env s before c rest e :
  selected env s = (before ++ c :: rest)%list ->
  storage_error env (inserts s + List.length before) = Some e ->
  let k := (inserts s + List.length before)%nat in
  let open := snd (land env (inserts s) [] before) in
  (forall name phone message status s0,
      inserts s0 = k ->
      exists s1,
        log_send_attempt env name phone message status s0 = (Ok tt, s1)
        /\ send_logs s1 = send_logs s0
        /\ logger s1
           = snoc (logger s0)
                  (ERROR, "Failed to log send attempt: " ++ str_exn e))
  /\ exit_status env s = Ok 0%Z
  /\ inserts (final env s) = (inserts s + List.length (selected env s))%nat
  /\ Forall2 (fun c' r => log_customer_name r = customer_name c'
                          /\ exists s0, r = entry_for env s0 c')
       (fst (land env (inserts s) [] before)
        ++ fst (land env (S k)
                  (if db_rollback env k then []
                   else open ++ match db_insert env k with
                                | None => [c]
                                | Some _ => []
                                end)
                  rest))%list
       (appended env s)
  /\ (db_insert env k = None -> db_rollback env k = false ->
      forall c1 rest1,
        rest = c1 :: rest1 -> accepted env (S k) = true ->
        exists r s0, In r (appended env s) /\ r = entry_for env s0 c)
  /\ ((forall j, (k <= j)%nat -> accepted env j = false) ->
      Forall2 (fun c' r => log_customer_name r = customer_name c')
              (landed env (inserts s) before) (appended env s)).
Proof.
  intros Hsel Hfail k open.
  change (storage_error env k = Some e) in Hfail.
  assert (Hacc : accepted env k = false)
    by (unfold accepted; now rewrite Hfail).
  assert (HF : Forall2 (fun c' r => exists s0, r = entry_for env s0 c')
                 (fst (land env (inserts s) [] before)
                  ++ fst (land env (S k) (still_open env k open c) rest))%list
                 (appended env s)).
  { pose proof (appended_rows env s) as HF. unfold landed in HF.
    rewrite Hsel, land_app in HF. cbn [fst] in HF.
    rewrite land_cons in HF. cbn [fst] in HF. fold k in HF.
    rewrite Hacc in HF. exact HF. }
  split; [|split; [|split; [|split; [|split]]]].
  - intros name phone message status s0 Hk.
    rewrite log_send_attempt_eq, Hk, Hacc.
    unfold insert_records. rewrite Hfail.
    eexists. split; [reflexivity|]. cbn [send_logs logger]. unfold snoc.
    now rewrite app_nil_r.
  - rewrite final_exit. unfold exit_code.
    assert (Hin : In c (selected env s)) by (rewrite Hsel; apply in_elt).
    apply selected_spec in Hin. destruct Hin as (-> & -> & _). reflexivity.
  - apply final_inserts.
  - replace (if db_rollback env k then []
             else (open ++ match db_insert env k with
                           | None => [c]
                           | Some _ => []
                           end)%list)
      with (still_open env k open c).
    + eapply Forall2_impl; [|exact HF]. cbv beta.
      intros c' r (s0 & ->). split; [apply entry_for_name | now exists s0].
    + unfold still_open. unfold storage_error in Hfail.
      destruct (db_insert env k).
      * destruct (db_rollback env k); [reflexivity | now rewrite app_nil_r].
      * rewrite Hfail. reflexivity.
  - intros Hins Hroll c1 rest1 -> Hnext.
    assert (Hopen : still_open env k open c = (open ++ [c])%list).
    { unfold still_open. unfold storage_error in Hfail.
      rewrite Hins in *. now rewrite Hfail, Hroll. }
    rewrite Hopen, land_cons in HF. cbn [fst] in HF. rewrite Hnext in HF.
    destruct (Forall2_In_l _ _ _ c HF) as (r & Hin & s0 & ->).
    { apply in_or_app. right. apply in_or_app. left.
      apply in_or_app. left. apply in_or_app. right. now left. }
    now exists (entry_for env s0 c), s0.
  - intros Hno.
    rewrite (land_none env k rest Hno _ (S k)) in HF by lia.
    rewrite app_nil_r in HF.
    eapply Forall2_impl; [|exact HF]. cbv beta.
    intros c' r (s0 & ->). apply entry_for_name.
Qed.

Lemma storage_error_is_swallowed_witness :
  exit_status Sample.busy (Sample.db [Sample.ali; Sample.omar]) = Ok 0%Z
  /\ exists r s0,
      In r (appended Sample.busy (Sample.db [Sample.ali; Sample.omar]))
      /\ r = entry_for Sample.busy s0 Sample.ali.
Proof.
  destruct (storage_error_is_swallowed Sample.busy
              (Sample.db [Sample.ali; Sample.omar])
              [] Sample.ali [Sample.omar] (Exception "database is locked"))
    as (_ & Hexit & _ & _ & Hrow & _).
  - reflexivity.
  - reflexivity.
  - split; [exact Hexit|].
    apply (Hrow eq_refl eq_refl Sample.omar []); reflexivity.
Defined.


(* ------------------------------------------------------------------ *)
(** ** Customers without a phone number *)

Lemma absent_or_empty_or_empty x :
  absent_or_empty x = true -> or_empty x = "".
Proof.
  destruct x as [v|]; cbn; [|reflexivity].
  intros H. apply String.eqb_eq in H. now subst.
Qed.

Lemma skipped_step env cs counts c s :
  skipped c = true ->
  process_customer env cs counts c s = (Ok (inc_skipped counts), after env cs s c)
  /\ requests (after env cs s c) = requests s
  /\ send_logs (after env cs s c)
     = (send_logs s
        ++ if accepted env (inserts s) then pending s ++ [skip_entry c]
           else [])%list
  /\ pending (after env cs s c)
     = still_open env (inserts s) (pending s) (skip_entry c).
Proof.
  intros Hs. rewrite process_customer_eq. unfold counted, after, entry_for.
  rewrite Hs. cbn [requests send_logs pending]. now rewrite app_nil_r.
Qed.

(** C4, as stated, fails in its last part: Noor has no phone data and is
    skipped without a gateway call, but when the database refuses the
    INSERT no log row is written for her. *)
Lemma skip_still_logged_fails :
  ~ skip_still_logged Sample.locked (Sample.db [Sample.noor]) Sample.noor.
Proof.
  intros (_ & _ & r & Hin & _).
  replace (appended Sample.locked (Sample.db [Sample.noor]))
    with (@nil SendLogEntry) in Hin by (vm_compute; reflexivity).
  exact Hin.
Qed.

(** C4, amended. A customer whose country code and phone number are both
    empty or absent is classified as skipped and no gateway call is made
    for that customer; the skip row is handed to the log writer and is
    appended to the send log (behind the rows an earlier failed commit left
    in the open transaction) unless the INSERT or its commit raises a
    storage error; otherwise it is not in the table, and is left in the open
    transaction or dropped as [still_open] says. *)
Theorem no_phone_data_is_skipped env cs counts c s :
  absent_or_empty (country_code c) = true ->
  absent_or_empty (phone_number c) = true ->
  skipped c = true
  /\ exists s',
      process_customer env cs counts c s = (Ok (inc_skipped counts), s')
      /\ requests s' = requests s
      /\ send_logs s'
         = (send_logs s
            ++ if accepted env (inserts s) then pending s ++ [skip_entry c]
               else [])%list
      /\ pending s' = still_open env (inserts s) (pending s) (skip_entry c).
Proof.
  intros Hc Hp.
  assert (Hs : skipped c = true).
  { unfold skipped, full_phone_of.
    rewrite (absent_or_empty_or_empty _ Hc), (absent_or_empty_or_empty _ Hp).
    reflexivity. }
  split; [exact Hs|]. exists (after env cs s c). now apply skipped_step.
Qed.

Lemma no_phone_data_is_skipped_witness :
  skipped Sample.noor = true
  /\ exists s',
      process_customer Sample.healthy [Sample.noor] (mkCounts 0 0 0) Sample.noor
                       (Sample.db [Sample.noor])
      = (Ok (mkCounts 0 0 1), s')
      /\ requests s' = []
      /\ send_logs s' = [skip_entry Sample.noor]
      /\ pending s' = [].
Proof.
  apply (no_phone_data_is_skipped Sample.healthy [Sample.noor] (mkCounts 0 0 0)
           Sample.noor (Sample.db [Sample.noor])); reflexivity.
Defined.

(** C8, as stated, fails: the row written for Noor (phone number empty,
    country code NULL) has status "skipped"; no row of the run has the
    status "No phone number available". *)
Lemma reason_in_status_fails :
  ~ reason_in_status Sample.healthy (Sample.db [Sample.noor]).
Proof.
  intros (_ & r & Hin & Hst).
  replace (appended Sample.healthy (Sample.db [Sample.noor]))
    with [skip_entry Sample.noor] in Hin by (vm_compute; reflexivity).
  destruct Hin as [<-|[]]. discriminate Hst.
Qed.

(** C8, amended. For a customer with an empty phone number and no country
    code the iteration makes no gateway call and hands the log writer a row
    whose status is "skipped" and whose message is "No phone number
    available"; the row is appended (behind the rows an earlier failed
    commit left in the open transaction) unless the INSERT or its commit
    raises. *)
Theorem empty_phone_row env cs counts i name vtype expiry s :
  let c := mkCustomer i name vtype expiry None (Some "") in
  exists s',
    process_customer env cs counts c s = (Ok (inc_skipped counts), s')
    /\ requests s' = requests s
    /\ send_logs s'
       = (send_logs s
          ++ if accepted env (inserts s)
             then pending s
                  ++ [mkSendLogEntry name "" "No phone number available" "skipped"]
             else [])%list
    /\ pending s'
       = still_open env (inserts s) (pending s)
           (mkSendLogEntry name "" "No phone number available" "skipped").
Proof.
  intros c. exists (after env cs s c). now apply skipped_step.
Qed.

(* ------------------------------------------------------------------ *)
(** ** Messages *)

(** C5, as stated, fails: the row written for a skipped customer carries
    the reason of the skip as its message, not the template. *)
Lemma every_message_is_template_fails :
  ~ every_message_is_template Sample.healthy (Sample.db [Sample.noor]).
Proof.
  unfold every_message_is_template.
  replace (appended Sample.healthy (Sample.db [Sample.noor]))
    with [skip_entry Sample.noor] by (vm_compute; reflexivity).
  intros H. inversion H as [|r rs (name & vtype & expiry & today & Hm) _].
  discriminate Hm.
Qed.

(** The UAE date string of a clock reading, written out: the date of the
    day the instant falls on once four hours are added to it. *)
Lemma today_at_eq env k :
  today_at env k
  = Calendar.iso (Calendar.date_of_days ((clock env k + 4 * 3600) / 86400)).
Proof. reflexivity. Qed.

Lemma dated_reading xs : forall k before c rest,
  xs = (before ++ c :: rest)%list ->
  In (c, (k + sends before)%nat) (dated k xs).
Proof.
  intros k before c rest ->. rewrite dated_app. apply in_or_app. right.
  now left.
Qed.

(** C5, amended. Every row a run appends was written for one selected
    customer, and the rows appear in the order of their customers.  The row
    of a skipped customer has status "skipped", an empty phone and the
    message "No phone number available".  The row of any other customer
    carries that customer's name and full phone number, and its message is
    what FIXED_TEMPLATE.format yields: the template with the four
    placeholders replaced by the name, visa type and expiry date of that
    same customer and by the UAE date (UTC+4) of the clock reading made in
    that customer's iteration, which is reading number 1 + the number of
    customers sent to the gateway before, counted from the reading the
    selection used. *)
Theorem logged_messages env s :
  Forall2
    (fun ck r =>
       let c := fst ck in
       let today :=
         Calendar.iso
           (Calendar.date_of_days ((clock env (snd ck) + 4 * 3600) / 86400)) in
       log_customer_name r = customer_name c
       /\ if skipped c
          then log_status r = "skipped" /\ log_phone r = ""
               /\ log_message r = "No phone number available"
          else log_phone r = full_phone_of c
               /\ render_message (customer_name c) (visa_type c)
                    (visa_expiry_date c) today
                  = Some (log_message r)
               /\ log_message r
                  = filled_template (customer_name c) (visa_type c)
                      (visa_expiry_date c) today)
    (landed env (inserts s) (dated (S (clock_reads s)) (selected env s)))
    (appended env s)
  /\ (forall before c rest,
        selected env s = (before ++ c :: rest)%list ->
        In (c, (S (clock_reads s) + sends before)%nat)
           (dated (S (clock_reads s)) (selected env s)))
  /\ (forall ck, In ck (landed env (inserts s)
                          (dated (S (clock_reads s)) (selected env s))) ->
                 In ck (dated (S (clock_reads s)) (selected env s))).
Proof.
  split; [|split].
  - eapply Forall2_impl; [|apply appended_dated]. cbv beta zeta.
    intros [c k] r (s0 & Hk & ->). cbn [fst snd] in *.
    rewrite <- today_at_eq.
    split; [apply entry_for_name|]. unfold entry_for.
    destruct (skipped c) eqn:Hs.
    + repeat split.
    + cbn [log_phone log_message]. unfold message_for. rewrite Hk.
      rewrite render_message_eq. repeat split.
  - intros before c rest Hsel. now apply (dated_reading _ _ before c rest).
  - intros ck. apply landed_incl.
Qed.

Lemma logged_messages_witness :
  In (Sample.omar, 2%nat)
     (dated 1 (selected Sample.healthy (Sample.db [Sample.ali; Sample.omar]))).
Proof.
  destruct (logged_messages Sample.healthy (Sample.db [Sample.ali; Sample.omar]))
    as (_ & Hread & _).
  apply (Hread [Sample.ali] Sample.omar []). reflexivity.
Defined.


(* ------------------------------------------------------------------ *)
(** ** Selection *)

(** The first clock reading of the sample run falls on 9 March in UTC and on
    10 March in Dubai; the job uses the latter. *)
(** The UAE date is the UTC date of the instant four hours later. *)
Lemma uae_date_offset now :
  Calendar.uae_date now = Calendar.date_of_days ((now + 14400) / 86400).
Proof. reflexivity. Qed.

Example dubai_date_is_used :
  Calendar.iso (Calendar.utc_date Sample.evening) = "2024-03-09"
  /\ today_at Sample.healthy 0 = "2024-03-10"
  /\ selected Sample.healthy (Sample.db [Sample.ali; Sample.late]) = [Sample.ali].
Proof. repeat split. Qed.

Lemma selected_ok env s :
  db_connect env = None -> db_select env = None ->
  selected env s
  = filter
      (fun c =>
         sql_eq (sql_date env (visa_expiry_date c))
           (Calendar.iso
              (Calendar.date_of_days
                 ((clock env (clock_reads s) + 4 * 3600) / 86400))))
      (customers_table s).
Proof. intros Hc Hs. unfold selected. rewrite Hc, Hs. reflexivity. Qed.

Lemma report_records env s c :
  filter is_report (records_for env s c) = [report c].
Proof.
  unfold records_for, report, insert_records.
  destruct (skipped c); cbn [filter is_report fst snd].
  - now destruct (storage_error env (inserts s)).
  - rewrite (prefix_app "Processing: ").
    assert (Hgw : is_report (gateway_record (full_phone_of c)
                               (answer_for env s c)) = false).
    { unfold gateway_record. destruct (answer_for env s c) as [resp|e];
        [destruct (status_code resp =? 200)%Z|]; reflexivity. }
    rewrite Hgw. now destruct (storage_error env (inserts s)).
Qed.

Lemma report_run_records env cs xs : forall s,
  filter is_report (run_records env cs xs s) = map report xs.
Proof.
  induction xs as [|x xs IH]; intros s; [reflexivity|].
  cbn [run_records map]. now rewrite filter_app, report_records, IH.
Qed.

Lemma reports_selected env s : reports env s = map report (selected env s).
Proof.
  unfold reports. rewrite main_logger, skipn_length_app, filter_app.
  replace (filter is_report (opening env s)) with (@nil (level * string))
    by reflexivity.
  cbn [app]. unfold closing.
  destruct (db_connect env) eqn:Ec;
    [unfold selected; rewrite Ec; reflexivity|].
  destruct (db_select env) eqn:Es;
    [unfold selected; rewrite Ec, Es; reflexivity|].
  cbn [filter].
  replace (is_report (found_record (List.length (selected env s)))) with false
    by reflexivity.
  destruct (selected env s) as [|c0 cs']; [reflexivity|].
  rewrite filter_app, report_run_records.
  replace (filter is_report (summary (run_counts env s)))
    with (@nil (level * string)) by reflexivity.
  apply app_nil_r.
Qed.

(** C2. Let [today] be the calendar date in the UAE (Asia/Dubai: four
    hours ahead of UTC, all year) of the instant the run reads first, and
    let the due rows be the rows of the customers table whose expiry date is
    [today], in table order.  When the database answers, the run goes
    through exactly the due rows, each once and in that order: its logger
    output names them and nobody else; it attempts one log write per due
    row; it calls the gateway for exactly the due rows that have a phone
    number; and every row it appends to the send log was written for a due
    row, which is one row per due row when no log write raises.  A
    customer with another date, or none, is not due. *)
Theorem only_customers_expiring_today env s :
  let today :=
    Calendar.iso
      (Calendar.date_of_days ((clock env (clock_reads s) + 4 * 3600) / 86400)) in
  let due :=
    filter (fun c => sql_eq (sql_date env (visa_expiry_date c)) today)
           (customers_table s) in
  db_connect env = None -> db_select env = None ->
  (forall c, In c due
             <-> In c (customers_table s)
                 /\ sql_date env (visa_expiry_date c) = Some today)
  /\ reports env s = map report due
  /\ inserts (final env s) = (inserts s + List.length due)%nat
  /\ Forall2 (fun c q => exists s0, q = request_for env s0 c)
             (filter (fun c => negb (skipped c)) due) (new_requests env s)
  /\ Forall2 (fun c r => log_customer_name r = customer_name c
                         /\ exists s0, r = entry_for env s0 c)
             (landed env (inserts s) due) (appended env s)
  /\ (forall c, In c (landed env (inserts s) due) -> In c due)
  /\ ((forall k, storage_error env k = None) ->
      Forall2 (fun c r => log_customer_name r = customer_name c
                          /\ exists s0, r = entry_for env s0 c)
              due (appended env s)).
Proof.
  cbv zeta. intros Hc Hs. rewrite <- (selected_ok env s Hc Hs).
  assert (HF : Forall2 (fun c r => log_customer_name r = customer_name c
                                   /\ exists s0, r = entry_for env s0 c)
                 (landed env (inserts s) (selected env s)) (appended env s)).
  { eapply Forall2_impl; [|apply appended_rows]. cbv beta.
    intros c r (s0 & ->). split; [apply entry_for_name | now exists s0]. }
  split; [|split; [|split; [|split; [|split; [|split]]]]].
  - intros c. rewrite selected_spec, today_at_eq. tauto.
  - apply reports_selected.
  - apply final_inserts.
  - apply new_requests_rows.
  - exact HF.
  - intros c. apply landed_incl.
  - intros Hok. rewrite landed_all in HF by now apply accepted_no_error.
    exact HF.
Qed.

Lemma only_customers_expiring_today_witness :
  reports Sample.healthy (Sample.db [Sample.ali; Sample.late])
  = [(INFO, "Processing: Ali (971501234567)")]
  /\ List.length (appended Sample.healthy (Sample.db [Sample.ali; Sample.late]))
     = 1%nat.
Proof.
  destruct (only_customers_expiring_today Sample.healthy
              (Sample.db [Sample.ali; Sample.late]) eq_refl eq_refl)
    as (_ & Hrep & _ & _ & _ & _ & Hrows).
  split.
  - rewrite Hrep. vm_compute. reflexivity.
  - rewrite <- (Forall2_length (Hrows (fun k => eq_refl))).
    vm_compute. reflexivity.
Defined.

(* ------------------------------------------------------------------ *)
(** ** Destination *)

Lemma Forall2_map_eq {A B C} (f : B -> C) (g : A -> C) xs ys :
  Forall2 (fun x y => f y = g x) xs ys -> map f ys = map g xs.
Proof. induction 1 as [|x y xs ys H _ IH]; cbn; congruence. Qed.

(** C9, as stated, fails: a country code stored with a trailing tab is
    stripped before the concatenation, so the destination is not the raw
    concatenation with plus, space and hyphen removed. *)
Lemma destination_from_raw_columns_fails :
  ~ destination_from_raw_columns Sample.healthy (Sample.db [Sample.tabbed]).
Proof.
  intros H. apply Forall2_map_eq in H. vm_compute in H. discriminate H.
Qed.

(** C9, amended. For every customer that is not skipped, the destination of
    the gateway call is the concatenation of country code and phone number,
    each defaulting to empty and each stripped of leading and trailing
    whitespace (what Python's str.strip removes, the whitespace outside
    ASCII included), with every plus sign, space and hyphen removed,
    followed by the suffix of an individual chat; for country code 971 and
    phone 501234567 the digits are 971501234567, also when the country code
    was stored with a no-break space behind it. *)
Theorem gateway_destination env s :
  Forall2
    (fun c q =>
       json_chatId q
       = PyStr.replace "-" ""
           (PyStr.replace " " ""
              (PyStr.replace "+" ""
                 (PyStr.strip (or_empty (country_code c))
                  ++ PyStr.strip (or_empty (phone_number c)))))
         ++ "@c.us")
    (filter (fun c => negb (skipped c)) (selected env s))
    (new_requests env s)
  /\ (forall i name vtype expiry,
        chat_id_of
          (full_phone_of
             (mkCustomer i name vtype expiry (Some "971") (Some "501234567")))
        = "971501234567@c.us")
  /\ (forall i name vtype expiry,
        chat_id_of
          (full_phone_of
             (mkCustomer i name vtype expiry (Some ("971" ++ Sample.NBSP))
                (Some "501234567")))
        = "971501234567@c.us").
Proof.
  split; [|split; reflexivity].
  eapply Forall2_impl; [|apply new_requests_rows]. cbv beta.
  intros c q (s0 & ->). cbn [request_for request_to json_chatId].
  unfold chat_id_of. now rewrite full_phone_of_eq.
Qed.


(* ------------------------------------------------------------------ *)
(** ** Pacing *)

Lemma NoDup_map_filter {A B} (f : A -> B) (p : A -> bool) (xs : list A) :
  NoDup (map f xs) -> NoDup (map f (filter p xs)).
Proof.
  induction xs as [|x xs IH]; cbn [map filter]; intros H; [constructor|].
  inversion H as [|y ys Hnot Hrest]; subst.
  destruct (p x); cbn [map]; [|now apply IH].
  constructor; [|now apply IH].
  intros Hin. apply Hnot. apply in_map_iff in Hin.
  destruct Hin as (z & Hz & Hin). apply filter_In in Hin.
  apply in_map_iff. exists z. tauto.
Qed.

Lemma selected_NoDup env s :
  NoDup (map id (customers_table s)) -> NoDup (selected env s).
Proof.
  intros H. apply (NoDup_map_inv id). unfold selected.
  destruct (db_connect env); [constructor|].
  destruct (db_select env); [constructor|].
  now apply NoDup_map_filter.
Qed.

Lemma row_eqb_refl c : row_eqb c c = true.
Proof. now apply row_eqb_eq. Qed.

(** In a batch without repeated rows, the rows followed by a delay are the
    rows with a phone number other than the final row. *)
Lemma paced_NoDup cs :
  NoDup cs ->
  paced cs cs = filter (fun c => negb (skipped c)) (removelast cs).
Proof.
  intros Hnd. destruct cs as [|c0 cs0] using rev_ind; [reflexivity|].
  clear IHcs0. rewrite removelast_last. unfold paced, is_last.
  rewrite filter_app. cbn [filter]. rewrite last_last, row_eqb_refl, orb_true_r.
  cbn [negb]. rewrite app_nil_r. apply filter_ext_in. intros c Hin.
  rewrite last_last.
  destruct (row_eqb c c0) eqn:E; [|now rewrite orb_false_r].
  apply row_eqb_eq in E. subst c0. exfalso.
  apply NoDup_remove_2 in Hnd. apply Hnd. now rewrite app_nil_r.
Qed.

Lemma sends_app xs ys : sends (xs ++ ys) = (sends xs + sends ys)%nat.
Proof. unfold sends. now rewrite filter_app, length_app. Qed.

Lemma sends_le xs : (sends xs <= List.length xs)%nat.
Proof. apply filter_length_le. Qed.

Lemma sends_removelast cs :
  sends cs = List.length cs ->
  sends (removelast cs) = (List.length cs - 1)%nat.
Proof.
  destruct cs as [|c0 cs0] using rev_ind; [reflexivity|]. clear IHcs0.
  rewrite removelast_last, sends_app, length_app. cbn [List.length].
  pose proof (sends_le cs0). pose proof (sends_le [c0]).
  cbn [List.length] in *. lia.
Qed.

Lemma delay_at_range env k :
  (0 <= random env k < 1)%Q -> (6 <= delay_at env k <= 8)%Q.
Proof. unfold delay_at. intros [H0 H1]. split; lra. Qed.

(** C6, as stated, fails: with two candidates of which the first has no
    phone number, the first is skipped before the delay is reached and the
    second is the final one, so the run makes no pacing delay at all. *)
Lemma one_delay_between_candidates_fails :
  ~ one_delay_between_candidates Sample.healthy
      (Sample.db [Sample.noor; Sample.ali]).
Proof. unfold one_delay_between_candidates. vm_compute. discriminate. Qed.

(** C6, amended. When the rows of the table have distinct ids and the
    random source yields numbers in [0, 1): the run makes one pacing delay
    for every selected customer that is sent to the gateway and is not the
    final row of the batch, and none after the final row or after a skipped
    customer; every delay lies between 6 and 8 seconds; with at most one
    candidate there is no delay; and when no candidate is skipped there are
    exactly N - 1 delays for N candidates. *)
Theorem pacing_delays env s :
  NoDup (map id (customers_table s)) ->
  (forall k, 0 <= random env k < 1)%Q ->
  List.length (new_sleeps env s) = sends (removelast (selected env s))
  /\ Forall (fun d => 6 <= d <= 8)%Q (new_sleeps env s)
  /\ ((List.length (selected env s) <= 1)%nat -> new_sleeps env s = [])
  /\ (sends (selected env s) = List.length (selected env s) ->
      List.length (new_sleeps env s) = (List.length (selected env s) - 1)%nat).
Proof.
  intros Hids Hrand.
  pose proof (new_sleeps_rows env s) as HF.
  rewrite (paced_NoDup _ (selected_NoDup env s Hids)) in HF.
  assert (Hlen : List.length (new_sleeps env s)
                 = sends (removelast (selected env s))).
  { symmetry. exact (Forall2_length HF). }
  split; [exact Hlen|]. split; [|split].
  - eapply Forall2_Forall_r; [exact HF|]. cbv beta.
    intros c d _ (k & ->). now apply delay_at_range.
  - intros Hle. apply length_zero_iff_nil. rewrite Hlen.
    destruct (selected env s) as [|c [|c' cs]]; [reflexivity|reflexivity|].
    cbn [List.length] in Hle. lia.
  - intros Hall. rewrite Hlen. now apply sends_removelast.
Qed.

Lemma pacing_delays_witness :
  List.length (new_sleeps Sample.healthy
                 (Sample.db [Sample.ali; Sample.noor; Sample.omar; Sample.late]))
  = 1%nat.
Proof.
  destruct (pacing_delays Sample.healthy
              (Sample.db [Sample.ali; Sample.noor; Sample.omar; Sample.late]))
    as (Hlen & _).
  - repeat constructor; cbn; intuition discriminate.
  - intros k. cbn. split; [discriminate | reflexivity].
  - exact Hlen.
Defined.


(* ------------------------------------------------------------------ *)
(** ** Exceptions *)

(** The state in which the loop reaches a given selected customer, and what
    the run as a whole keeps of that customer's iteration. *)
Lemma run_reaches env s before c rest :
  selected env s = (before ++ c :: rest)%list ->
  exists s0 rows0 rows1 recs0 recs1,
    List.length (requests s0) = (List.length (requests s) + sends before)%nat
    /\ inserts s0 = (inserts s + List.length before)%nat
    /\ appended env s
       = (rows0 ++ (if accepted env (inserts s0)
                    then pending s0 ++ [entry_for env s0 c] else [])
                ++ rows1)%list
    /\ logger (final env s)
       = (logger s ++ recs0 ++ records_for env s0 c ++ recs1)%list.
Proof.
  intros Hsel.
  destruct (final_fields env s)
    as (pre & Hlogs & _ & _ & _ & _ & (recs & Hlog) & _).
  cbv zeta in Hlogs, Hlog. unfold appended. rewrite Hlogs, Hlog.
  pose proof (run_from_app env (selected env s) before (c :: rest) (begun pre s))
    as Hrun.
  rewrite run_from_cons, <- Hsel in Hrun. rewrite Hrun.
  set (cs := selected env s) in *.
  set (s0 := run_from env cs before (begun pre s)).
  destruct (run_send_logs_app env cs before (begun pre s)) as (rows0 & H0).
  destruct (run_send_logs_app env cs rest (after env cs s0 c)) as (rows1 & H1).
  destruct (run_logger env cs before (begun pre s)) as (recs0 & L0).
  destruct (run_logger env cs rest (after env cs s0 c)) as (recs1 & L1).
  fold s0 in H0, L0.
  exists s0, rows0, rows1, (pre ++ recs0)%list, (recs1 ++ recs)%list.
  split; [|split; [|split]].
  - unfold s0. now rewrite run_requests_length.
  - unfold s0. now rewrite run_inserts.
  - rewrite H1. cbn [after send_logs]. rewrite H0. cbn [begun send_logs].
    rewrite <- !app_assoc. apply skipn_length_app.
  - rewrite L1. cbn [after logger]. rewrite L0. cbn [begun logger].
    now rewrite <- !app_assoc.
Qed.

(** C7. No exception raised while one customer is processed leaves the
    iteration: a gateway exception and a storage exception (of the INSERT
    or of its commit) are both caught and logged at level ERROR with their
    description, the row handed to the log writer after a gateway exception
    has an "error: ..." status, every selected customer still reaches its
    own log write and the process ends with the status of a completed run.  Only a failure outside the loop (to
    connect, or during the selection query) aborts the run: exit status 1,
    no gateway call, no log row. *)
Theorem exceptions_do_not_abort_the_run env s :
  (forall cs counts c s0,
      exists counts' s1,
        process_customer env cs counts c s0 = (Ok counts', s1))
  /\ exit_status env s = Ok (exit_code env)
  /\ inserts (final env s) = (inserts s + List.length (selected env s))%nat
  /\ (forall before c rest e,
         selected env s = (before ++ c :: rest)%list ->
         skipped c = false ->
         (forall req,
             http_post env (List.length (requests s) + sends before) req = inr e) ->
         exit_status env s = Ok 0%Z
         /\ In (ERROR, "Failed to send to " ++ full_phone_of c
                       ++ ": Exception sending message: " ++ str_exn e)
               (logger (final env s))
         /\ (accepted env (inserts s + List.length before) = true ->
             exists message,
               In (mkSendLogEntry (customer_name c) (full_phone_of c) message
                     ("error: Exception sending message: " ++ str_exn e))
                  (appended env s)))
  /\ (forall before c rest e,
         selected env s = (before ++ c :: rest)%list ->
         db_insert env (inserts s + List.length before) = Some e ->
         exit_status env s = Ok 0%Z
         /\ In (ERROR, "Failed to log send attempt: " ++ str_exn e)
               (logger (final env s)))
  /\ (forall before c rest e,
         selected env s = (before ++ c :: rest)%list ->
         db_insert env (inserts s + List.length before) = None ->
         db_commit env (inserts s + List.length before) = Some e ->
         exit_status env s = Ok 0%Z
         /\ In (ERROR, "Failed to log send attempt: " ++ str_exn e)
               (logger (final env s)))
  /\ (exit_code env <> 0%Z ->
      exit_status env s = Ok 1%Z
      /\ appended env s = [] /\ new_requests env s = []).
Proof.
  assert (Hexit0 : forall c, In c (selected env s) -> exit_status env s = Ok 0%Z).
  { intros c Hin. rewrite final_exit. unfold exit_code.
    apply selected_spec in Hin. now destruct Hin as (-> & -> & _). }
  assert (Hstore : forall before c rest e,
             selected env s = (before ++ c :: rest)%list ->
             storage_error env (inserts s + List.length before) = Some e ->
             exit_status env s = Ok 0%Z
             /\ In (ERROR, "Failed to log send attempt: " ++ str_exn e)
                   (logger (final env s))).
  { intros before c rest e Hsel Hfail.
    destruct (run_reaches env s before c rest Hsel)
      as (s0 & rows0 & rows1 & recs0 & recs1 & _ & Hins & _ & Hlog).
    split; [apply (Hexit0 c); rewrite Hsel; apply in_elt|].
    rewrite Hlog. unfold records_for, insert_records. rewrite Hins, Hfail.
    apply in_or_app. right. apply in_or_app. right.
    apply in_or_app. left. destruct (skipped c); cbn; auto. }
  split; [|split; [|split; [|split; [|split; [|split]]]]].
  - intros cs counts c s0. rewrite process_customer_eq. eauto.
  - apply final_exit.
  - apply final_inserts.
  - intros before c rest e Hsel Hskip Hpost.
    destruct (run_reaches env s before c rest Hsel)
      as (s0 & rows0 & rows1 & recs0 & recs1 & Hreq & Hins & Hrows & Hlog).
    assert (Hans : answer_for env s0 c = inr e).
    { unfold answer_for. rewrite Hreq. apply Hpost. }
    split; [apply (Hexit0 c); rewrite Hsel; apply in_elt|]. split.
    + rewrite Hlog. unfold records_for. rewrite Hskip, Hans.
      cbn [gateway_record]. apply in_or_app. right. apply in_or_app. right.
      apply in_or_app. left. right. now left.
    + intros Hacc. exists (message_for env s0 c). rewrite Hrows, Hins, Hacc.
      unfold entry_for. rewrite Hskip, Hans. cbn [outcome_of snd].
      apply in_or_app. right. apply in_or_app. left.
      apply in_or_app. right. now left.
  - intros before c rest e Hsel Hfail.
    apply (Hstore before c rest e Hsel). unfold storage_error.
    now rewrite Hfail.
  - intros before c rest e Hsel Hins Hfail.
    apply (Hstore before c rest e Hsel). unfold storage_error.
    now rewrite Hins.
  - intros Hcode.
    assert (Hnone : selected env s = []).
    { unfold selected. unfold exit_code in Hcode.
      destruct (db_connect env); [reflexivity|].
      destruct (db_select env); [reflexivity | now elim Hcode]. }
    split; [|split].
    + rewrite final_exit. f_equal. unfold exit_code in *.
      destruct (db_connect env); [reflexivity|].
      destruct (db_select env); [reflexivity | now elim Hcode].
    + pose proof (appended_rows env s) as HF. rewrite Hnone in HF.
      now inversion HF.
    + pose proof (new_requests_rows env s) as HF. rewrite Hnone in HF.
      now inversion HF.
Qed.

Lemma exceptions_do_not_abort_the_run_witness :
  exit_status Sample.flaky (Sample.db [Sample.ali; Sample.omar]) = Ok 0%Z
  /\ In (ERROR,
         "Failed to send to 971501234567: Exception sending message: Read timed out")
        (logger (final Sample.flaky (Sample.db [Sample.ali; Sample.omar])))
  /\ exit_status Sample.no_table (Sample.db [Sample.ali]) = Ok 1%Z.
Proof.
  destruct (exceptions_do_not_abort_the_run Sample.flaky
              (Sample.db [Sample.ali; Sample.omar]))
    as (_ & _ & _ & Hgw & _).
  destruct (Hgw [] Sample.ali [Sample.omar] (Exception "Read timed out"))
    as (Hexit & Hlog & _); [reflexivity | reflexivity | reflexivity |].
  destruct (exceptions_do_not_abort_the_run Sample.no_table
              (Sample.db [Sample.ali]))
    as (_ & _ & _ & _ & _ & _ & Habort).
  destruct Habort as (Hone & _); [discriminate|].
  split; [exact Hexit|]. split; [exact Hlog | exact Hone].
Defined.


(* ------------------------------------------------------------------ *)
(** * Further properties of the script *)

(** ** Destination normalisation *)

Lemma has_char_replace c d s :
  has_char c (PyStr.replace d "" s) = true -> has_char c s = true.
Proof.
  induction s as [|a s IH]; cbn [PyStr.replace has_char]; [easy|].
  destruct (Ascii.eqb a d); cbn [append has_char].
  - intros H. rewrite (IH H). apply orb_true_r.
  - intros H. apply orb_true_iff in H. destruct H as [H|H].
    + now rewrite H.
    + rewrite (IH H). apply orb_true_r.
Qed.

Lemma has_char_replace_same c s : has_char c (PyStr.replace c "" s) = false.
Proof.
  induction s as [|a s IH]; cbn [PyStr.replace has_char]; [reflexivity|].
  destruct (Ascii.eqb a c) eqn:E; cbn [append has_char]; [exact IH|].
  now rewrite E, IH.
Qed.

Lemma replace_absent c new s :
  has_char c s = false -> PyStr.replace c new s = s.
Proof.
  induction s as [|a s IH]; cbn [PyStr.replace has_char]; [reflexivity|].
  intros H. apply orb_false_iff in H. destruct H as [E H].
  now rewrite E, (IH H).
Qed.

Lemma has_char_kept c d s :
  has_char c s = false -> has_char c (PyStr.replace d "" s) = false.
Proof.
  intros H. destruct (has_char c (PyStr.replace d "" s)) eqn:E; [|reflexivity].
  apply has_char_replace in E. congruence.
Qed.

(** X1. The chat id built from any phone string is that string without its
    plus signs, spaces and hyphens, followed by "@c.us": none of the three
    characters is left in it, and a string that has none of them is used
    unchanged. *)
Theorem chat_id_is_clean phone_number :
  exists digits,
    chat_id_of phone_number = digits ++ "@c.us"
    /\ has_char "+" digits = false
    /\ has_char " " digits = false
    /\ has_char "-" digits = false
    /\ (has_char "+" phone_number = false ->
        has_char " " phone_number = false ->
        has_char "-" phone_number = false ->
        digits = phone_number).
Proof.
  unfold chat_id_of. eexists. split; [reflexivity|].
  split; [|split; [|split]].
  - apply has_char_kept, has_char_kept, has_char_replace_same.
  - apply has_char_kept, has_char_replace_same.
  - apply has_char_replace_same.
  - intros Hp Hs Hh. now rewrite (replace_absent "+"), (replace_absent " "),
      (replace_absent "-").
Qed.

Lemma chat_id_is_clean_witness :
  exists digits,
    chat_id_of "971501234567" = digits ++ "@c.us" /\ digits = "971501234567".
Proof.
  destruct (chat_id_is_clean "971501234567") as (d & H & _ & _ & _ & Hsame).
  exists d. split; [exact H | apply Hsame; reflexivity].
Defined.

(** ** Which customers are skipped *)

Lemma lstrip_cons a r :
  PyStr.lstrip (String a r)
  = if PyStr.space1 a then PyStr.lstrip r
    else match r with
         | EmptyString => String a r
         | String b r2 =>
             if PyStr.space2 a b then PyStr.lstrip r2
             else match r2 with
                  | EmptyString => String a r
                  | String c r3 =>
                      if PyStr.space3 a b c then PyStr.lstrip r3
                      else String a r
                  end
         end.
Proof. reflexivity. Qed.

Lemma blank_cons a r :
  PyStr.blank (String a r)
  = if PyStr.space1 a then PyStr.blank r
    else match r with
         | EmptyString => false
         | String b r2 =>
             if PyStr.space2 a b then PyStr.blank r2
             else match r2 with
                  | EmptyString => false
                  | String c r3 => PyStr.space3 a b c && PyStr.blank r3
                  end
         end.
Proof. reflexivity. Qed.

Lemma rstrip_cons a r :
  PyStr.rstrip (String a r)
  = if PyStr.blank (String a r) then "" else String a (PyStr.rstrip r).
Proof. reflexivity. Qed.

Lemma rstrip_blank s : PyStr.rstrip s = "" <-> PyStr.blank s = true.
Proof.
  destruct s as [|a r]; [easy|]. rewrite rstrip_cons.
  destruct (PyStr.blank (String a r)); easy.
Qed.

Lemma blank_lstrip_upto n : forall s,
  (String.length s <= n)%nat -> PyStr.blank (PyStr.lstrip s) = PyStr.blank s.
Proof.
  induction n as [|n IH]; intros s Hn.
  - destruct s; [reflexivity | cbn in Hn; lia].
  - destruct s as [|a r]; [reflexivity|].
    rewrite (lstrip_cons a r), (blank_cons a r).
    destruct (PyStr.space1 a) eqn:E1; [apply IH; cbn in Hn; lia|].
    destruct r as [|b r2];
      [cbv beta iota; now rewrite (blank_cons a ""), E1|].
    cbv beta iota.
    destruct (PyStr.space2 a b) eqn:E2; [apply IH; cbn in Hn; lia|].
    destruct r2 as [|c r3];
      [cbv beta iota; now rewrite (blank_cons a (String b "")), E1, E2|].
    cbv beta iota.
    destruct (PyStr.space3 a b c) eqn:E3.
    + cbn [andb]. apply IH. cbn in Hn. lia.
    + rewrite (blank_cons a (String b (String c r3))), E1, E2, E3.
      reflexivity.
Qed.

Lemma blank_lstrip s : PyStr.blank (PyStr.lstrip s) = PyStr.blank s.
Proof. now apply (blank_lstrip_upto (String.length s)). Qed.

Lemma strip_blank s : PyStr.strip s = "" <-> PyStr.blank s = true.
Proof. unfold PyStr.strip. now rewrite rstrip_blank, blank_lstrip. Qed.

Lemma append_eq_empty a b : a ++ b = "" <-> a = "" /\ b = "".
Proof. destruct a; cbn [append]; [intuition | easy]. Qed.

Lemma blank_or_empty x : PyStr.blank (or_empty x) = blank_column x.
Proof.
  destruct x as [v|]; [|reflexivity]. cbn [or_empty blank_column].
  destruct (PyStr.truthy v) eqn:E; [reflexivity|].
  apply truthy_false in E. now subst.
Qed.

(** X2. A customer is skipped exactly when each of the two phone columns is
    NULL or holds nothing but whitespace, in the sense of Python's
    str.strip: tabs, line ends and spaces as well as the whitespace outside
    ASCII, such as the no-break space and the ideographic space; any other
    character in either column leads to a gateway call. *)
Theorem skipped_iff_blank_columns c :
  skipped c = true
  <-> blank_column (country_code c) = true
      /\ blank_column (phone_number c) = true.
Proof.
  unfold skipped, PyStr.truthy. rewrite negb_involutive, String.eqb_eq.
  rewrite full_phone_of_eq, append_eq_empty, !strip_blank, !blank_or_empty.
  reflexivity.
Qed.

Lemma skipped_iff_blank_columns_witness :
  skipped (mkCustomer 9 "Sam" "Tourist" "2024-03-10" (Some "  ") None) = true
  /\ skipped Sample.hollow = true.
Proof.
  split.
  - apply (proj2 (skipped_iff_blank_columns
                    (mkCustomer 9 "Sam" "Tourist" "2024-03-10" (Some "  ") None))).
    split; reflexivity.
  - apply (proj2 (skipped_iff_blank_columns Sample.hollow)).
    split; reflexivity.
Defined.


(** ** Gateway calls *)

(** X3. Every gateway call a run makes goes to WAHA_URL/api/sendText with
    the configured session and a timeout of 30 seconds, and carries the
    Content-Type header, preceded by a bearer Authorization header exactly
    when an API key is configured. *)
Theorem gateway_calls_are_uniform env s :
  Forall (fun q =>
            url q = WAHA_URL env ++ "/api/sendText"
            /\ json_session q = SESSION env
            /\ timeout q = 30%Z
            /\ headers q = expected_headers env)
         (new_requests env s).
Proof.
  eapply Forall2_Forall_r; [apply new_requests_rows|]. cbv beta.
  intros c q _ (s0 & ->). repeat split.
Qed.

(** X4. The gateway client makes exactly one call whatever the gateway
    answers, writes nothing to the send log and never raises; a run makes
    one call for every selected customer that is not skipped and none for
    the others, so a failed send is never retried within the run. *)
Theorem one_gateway_call_per_send env s :
  (forall phone message s0,
      exists outcome s1,
        send_whatsapp_message env phone message s0 = (Ok outcome, s1)
        /\ requests s1 = (requests s0 ++ [request_to env phone message])%list
        /\ send_logs s1 = send_logs s0
        /\ sleeps s1 = sleeps s0)
  /\ List.length (new_requests env s) = sends (selected env s)
  /\ (List.length (new_requests env s) <= List.length (selected env s))%nat.
Proof.
  assert (Hlen : List.length (new_requests env s) = sends (selected env s)).
  { symmetry. exact (Forall2_length (new_requests_rows env s)). }
  split; [|split; [exact Hlen | rewrite Hlen; apply sends_le]].
  intros phone message s0. rewrite send_whatsapp_message_eq.
  eexists. eexists. split; [reflexivity|]. repeat split.
Qed.

(** X5. For a customer that is sent to the gateway and whose log write
    goes through, INSERT and commit, the row appended to the send log
    (behind the rows an earlier failed commit left in the open transaction)
    records what was sent: its
    message is the text of the gateway call, its phone is the number the
    chat id was built from (before normalisation), and its status is the
    label the gateway client returned for that call. *)
Theorem log_row_matches_gateway_call env cs counts c s :
  skipped c = false ->
  accepted env (inserts s) = true ->
  exists counts' s' q r,
    process_customer env cs counts c s = (Ok counts', s')
    /\ requests s' = (requests s ++ [q])%list
    /\ send_logs s' = (send_logs s ++ pending s ++ [r])%list
    /\ log_customer_name r = customer_name c
    /\ log_message r = json_text q
    /\ json_chatId q = chat_id_of (log_phone r)
    /\ log_status r
       = snd (outcome_of (http_post env (List.length (requests s)) q)).
Proof.
  intros Hskip Hacc. rewrite process_customer_eq.
  exists (counted env s counts c), (after env cs s c), (request_for env s c),
    (entry_for env s c).
  unfold after, entry_for. rewrite Hskip, Hacc.
  cbn [requests send_logs log_customer_name log_message log_phone log_status].
  repeat split.
Qed.

Lemma log_row_matches_gateway_call_witness :
  exists counts' s' q r,
    process_customer Sample.flaky [Sample.omar] (mkCounts 0 0 0) Sample.omar
                     (Sample.db [Sample.omar])
    = (Ok counts', s')
    /\ requests s' = [q] /\ send_logs s' = [r]
    /\ log_message r = json_text q
    /\ json_chatId q = chat_id_of (log_phone r).
Proof.
  destruct (log_row_matches_gateway_call Sample.flaky [Sample.omar]
              (mkCounts 0 0 0) Sample.omar (Sample.db [Sample.omar]))
    as (k & s' & q & r & H1 & H2 & H3 & _ & H4 & H5 & _);
    [reflexivity | reflexivity |].
  exists k, s', q, r. repeat split; assumption.
Defined.

(** ** Status labels *)

Lemma known_status_outcome answer : known_status (snd (outcome_of answer)) = true.
Proof.
  unfold known_status. destruct answer as [resp|e]; cbn [outcome_of].
  - destruct (status_code resp =? 200)%Z; cbn [snd]; [reflexivity|].
    rewrite (prefix_app "failed: WAHA API error: "), orb_true_r. reflexivity.
  - cbn [snd]. rewrite (prefix_app "error: Exception sending message: ").
    apply orb_true_r.
Qed.

(** X6. Every row a run appends has one of four kinds of status: "skipped",
    "sent", a label starting with "failed: WAHA API error: " or a label
    starting with "error: Exception sending message: ". *)
Theorem logged_status_is_known env s :
  Forall (fun r => known_status (log_status r) = true) (appended env s).
Proof.
  eapply Forall2_Forall_r; [apply appended_rows|]. cbv beta.
  intros c r _ (s0 & ->). unfold entry_for.
  destruct (skipped c); [reflexivity|]. cbn [log_status].
  apply known_status_outcome.
Qed.

(** ** What a run leaves untouched *)

Lemma final_send_logs env s :
  send_logs (final env s) = (send_logs s ++ appended env s)%list.
Proof.
  destruct (final_fields env s) as (pre & Hlogs & _).
  destruct (run_send_logs_app env (selected env s) (selected env s)
              (begun pre s)) as (rows & Hrows).
  unfold appended. rewrite Hlogs, Hrows. cbn [begun send_logs].
  now rewrite skipn_length_app.
Qed.

Lemma final_requests env s :
  requests (final env s) = (requests s ++ new_requests env s)%list.
Proof.
  destruct (final_fields env s) as (pre & _ & Hreq & _).
  destruct (run_requests env (selected env s) (selected env s) (begun pre s))
    as (reqs & Hreqs & _).
  unfold new_requests. rewrite Hreq, Hreqs. cbn [begun requests].
  now rewrite skipn_length_app.
Qed.

Lemma final_table env s : customers_table (final env s) = customers_table s.
Proof.
  destruct (final_fields env s) as (pre & _ & _ & _ & _ & Htbl & _).
  cbv zeta in Htbl. now rewrite Htbl, run_table.
Qed.

(** X7. A run never changes the customers table, and it only appends to the
    send log and to the sequence of gateway calls: whatever was there before
    the run is still there, unchanged and in front. *)
Theorem run_is_read_only_and_append_only env s :
  customers_table (final env s) = customers_table s
  /\ send_logs (final env s) = (send_logs s ++ appended env s)%list
  /\ requests (final env s) = (requests s ++ new_requests env s)%list.
Proof.
  split; [apply final_table|]. split; [apply final_send_logs | apply final_requests].
Qed.

(** ** Running the job twice *)

Lemma selected_same_day env s s' :
  customers_table s' = customers_table s ->
  today_at env (clock_reads s') = today_at env (clock_reads s) ->
  selected env s' = selected env s.
Proof. unfold selected. now intros -> ->. Qed.

(** X8. The job keeps no record of whom it has notified: a second run that
    starts on the same UAE date as the first selects the same customers
    again, calls the gateway for each of them a second time and, when no
    INSERT and no commit fails, leaves two log rows per selected
    customer. *)
Theorem second_run_notifies_again env s :
  today_at env (clock_reads (final env s)) = today_at env (clock_reads s) ->
  selected env (final env s) = selected env s
  /\ List.length (new_requests env (final env s))
     = List.length (new_requests env s)
  /\ ((forall k, db_insert env k = None) ->
      (forall k, db_commit env k = None) ->
      List.length (send_logs (final env (final env s)))
      = (List.length (send_logs s) + 2 * List.length (selected env s))%nat).
Proof.
  intros Hday.
  assert (Hsel : selected env (final env s) = selected env s)
    by (apply selected_same_day; [apply final_table | exact Hday]).
  split; [exact Hsel|]. split.
  - rewrite <- (Forall2_length (new_requests_rows env (final env s))).
    rewrite <- (Forall2_length (new_requests_rows env s)). now rewrite Hsel.
  - intros Hok Hcommit.
    assert (Hall : forall st, List.length (appended env st)
                              = List.length (selected env st)).
    { intros st. pose proof (appended_rows env st) as HF.
      rewrite landed_all in HF
        by (intros k; unfold accepted, storage_error;
            now rewrite Hok, Hcommit).
      symmetry. exact (Forall2_length HF). }
    rewrite !final_send_logs, !length_app, !Hall, Hsel. lia.
Qed.

Lemma second_run_notifies_again_witness :
  List.length (new_requests Sample.healthy
                 (final Sample.healthy (Sample.db [Sample.ali; Sample.late])))
  = List.length (new_requests Sample.healthy
                   (Sample.db [Sample.ali; Sample.late])).
Proof.
  apply (second_run_notifies_again Sample.healthy
           (Sample.db [Sample.ali; Sample.late])).
  reflexivity.
Defined.


(** ** Run summary *)

Lemma loop_counts_spec env cs xs : forall s counts,
  skipped_count (loop_counts env cs xs s counts)
  = (skipped_count counts + List.length (filter skipped xs))%nat
  /\ (sent_count (loop_counts env cs xs s counts)
      + failed_count (loop_counts env cs xs s counts)
      = sent_count counts + failed_count counts + sends xs)%nat.
Proof.
  unfold sends.
  induction xs as [|x xs IH]; intros s counts; cbn [loop_counts filter].
  - cbn [List.length]. lia.
  - destruct (IH (after env cs s x) (counted env s counts x)) as [-> ->].
    unfold counted. destruct (skipped x); cbn [negb List.length].
    + cbn [inc_skipped skipped_count sent_count failed_count]. lia.
    + destruct (fst (outcome_of (answer_for env s x)));
        cbn [inc_sent inc_failed skipped_count sent_count failed_count]; lia.
Qed.

Lemma loop_counts_all_sent env cs xs :
  (forall k req, exists body, http_post env k req = inl (mkResponse 200 body)) ->
  forall s counts,
    failed_count (loop_counts env cs xs s counts) = failed_count counts.
Proof.
  intros Hok.
  induction xs as [|x xs IH]; intros s counts; cbn [loop_counts]; [reflexivity|].
  rewrite IH. unfold counted. destruct (skipped x); [reflexivity|].
  unfold answer_for.
  destruct (Hok (List.length (requests s)) (request_for env s x)) as (body & ->).
  reflexivity.
Qed.

Lemma closing_nonempty env s :
  selected env s <> [] ->
  closing env s
  = found_record (List.length (selected env s))
    :: (run_records env (selected env s) (selected env s) (loop_start env s)
        ++ summary (run_counts env s))%list.
Proof.
  intros Hne. unfold closing.
  destruct (db_connect env) eqn:Ec;
    [exfalso; apply Hne; unfold selected; now rewrite Ec|].
  destruct (db_select env) eqn:Es;
    [exfalso; apply Hne; unfold selected; now rewrite Ec, Es|].
  destruct (selected env s); [now elim Hne | reflexivity].
Qed.

(** X9. The three counters of the loop partition the selected customers:
    the skipped counter counts exactly the customers without a phone number,
    sent plus failed counts exactly the gateway calls, and nothing is
    counted twice or left out; failed stays 0 when every call is answered
    with HTTP 200.  When at least one customer was selected, the summary the
    run logs carries these three numbers. *)
Theorem summary_counts env s :
  let counts := run_counts env s in
  skipped_count counts = List.length (filter skipped (selected env s))
  /\ (sent_count counts + failed_count counts)%nat = sends (selected env s)
  /\ total counts = List.length (selected env s)
  /\ ((forall k req, exists body,
          http_post env k req = inl (mkResponse 200 body)) ->
      failed_count counts = 0%nat)
  /\ (selected env s <> [] ->
      In (INFO, "  - Sent: " ++ PyStr.str_nat (sent_count counts))
         (logger (final env s))
      /\ In (INFO, "  - Failed: " ++ PyStr.str_nat (failed_count counts))
            (logger (final env s))
      /\ In (INFO, "  - Skipped: " ++ PyStr.str_nat (skipped_count counts))
            (logger (final env s))).
Proof.
  cbv zeta. unfold run_counts.
  destruct (loop_counts_spec env (selected env s) (selected env s)
              (loop_start env s) (mkCounts 0 0 0)) as [Hsk Hsf].
  cbn [skipped_count sent_count failed_count Nat.add] in Hsk, Hsf.
  split; [exact Hsk|]. split; [exact Hsf|]. split; [|split].
  - unfold total. rewrite Hsk, Hsf. unfold sends.
    clear. induction (selected env s) as [|c cs IH]; [reflexivity|].
    cbn [filter]. destruct (skipped c); cbn [negb List.length]; lia.
  - intros Hok. now rewrite loop_counts_all_sent.
  - intros Hne. rewrite main_logger, (closing_nonempty env s Hne).
    fold (run_counts env s). unfold summary.
    repeat split; apply in_or_app; right; apply in_or_app; right; right;
      apply in_or_app; right; cbn [In]; tauto.
Qed.

Lemma summary_counts_witness :
  In (INFO, "  - Skipped: 1")
     (logger (final Sample.flaky
                (Sample.db [Sample.ali; Sample.noor; Sample.omar]))).
Proof.
  destruct (summary_counts Sample.flaky
              (Sample.db [Sample.ali; Sample.noor; Sample.omar]))
    as (_ & _ & _ & _ & Hlog).
  assert (E : skipped_count
                (run_counts Sample.flaky
                   (Sample.db [Sample.ali; Sample.noor; Sample.omar])) = 1%nat)
    by (vm_compute; reflexivity).
  destruct Hlog as (_ & _ & Hsk); [vm_compute; discriminate|].
  rewrite E in Hsk. exact Hsk.
Defined.

(** ** Runs that process nobody *)

(** X10. When the database answers but no customer is due, the run logs
    that it found 0 customers and that there is nobody to notify, and ends
    with status 0 without any gateway call, log row or delay. *)
Theorem nobody_due env s :
  db_connect env = None -> db_select env = None -> selected env s = [] ->
  exit_status env s = Ok 0%Z
  /\ logger (final env s)
     = (logger s ++ opening env s
        ++ [found_record 0; (INFO, "No customers to notify. Exiting.")])%list
  /\ appended env s = [] /\ new_requests env s = [] /\ new_sleeps env s = [].
Proof.
  intros Hc Hs Hsel. split; [|split; [|split; [|split]]].
  - rewrite final_exit. unfold exit_code. now rewrite Hc, Hs.
  - rewrite main_logger. unfold closing. now rewrite Hc, Hs, Hsel.
  - pose proof (appended_rows env s) as HF. rewrite Hsel in HF. now inversion HF.
  - pose proof (new_requests_rows env s) as HF. rewrite Hsel in HF.
    now inversion HF.
  - pose proof (new_sleeps_rows env s) as HF. rewrite Hsel in HF.
    now inversion HF.
Qed.

Lemma nobody_due_witness :
  exit_status Sample.healthy (Sample.db [Sample.late]) = Ok 0%Z.
Proof.
  apply (nobody_due Sample.healthy (Sample.db [Sample.late])); reflexivity.
Defined.

(** X11. [get_db_connection] never raises: it returns a connection, new
    and without an open transaction, and changes nothing else when
    connecting succeeds, and logs the error and returns None otherwise.  A run whose connection fails logs the two
    errors, never queries, calls or writes, and ends with status 1; a run
    whose query raises logs the error of the main process and ends with
    status 1 likewise. *)
Theorem startup_failures env s :
  (forall s0,
      get_db_connection env s0
      = match db_connect env with
        | None => (Ok true, with_pending (fun _ => []) s0)
        | Some e =>
            (Ok false,
             with_logger
               (fun l => snoc l (ERROR, "DATABASE CONNECTION FAILED: " ++ str_exn e))
               (with_pending (fun _ => []) s0))
        end)
  /\ (forall e, db_connect env = Some e ->
        exit_status env s = Ok 1%Z
        /\ logger (final env s)
           = (logger s ++ opening env s
              ++ [(ERROR, ("DATABASE CONNECTION FAILED: " ++ str_exn e)%string);
                  (ERROR, "Failed to connect to database. Exiting.")])%list
        /\ appended env s = [] /\ new_requests env s = [])
  /\ (forall e, db_connect env = None -> db_select env = Some e ->
        exit_status env s = Ok 1%Z
        /\ logger (final env s)
           = (logger s ++ opening env s
              ++ [(ERROR, ("Error in main process: " ++ str_exn e)%string)])%list
        /\ appended env s = [] /\ new_requests env s = []).
Proof.
  assert (Hnone : selected env s = [] ->
                  appended env s = [] /\ new_requests env s = []).
  { intros Hsel. split.
    - pose proof (appended_rows env s) as HF. rewrite Hsel in HF.
      now inversion HF.
    - pose proof (new_requests_rows env s) as HF. rewrite Hsel in HF.
      now inversion HF. }
  split; [|split].
  - intros s0. unfold get_db_connection, try_except, bind, sqlite3_connect.
    now destruct (db_connect env).
  - intros e Hc. split; [|split].
    + rewrite final_exit. unfold exit_code. now rewrite Hc.
    + rewrite main_logger. unfold closing. now rewrite Hc.
    + apply Hnone. unfold selected. now rewrite Hc.
  - intros e Hc Hs. split; [|split].
    + rewrite final_exit. unfold exit_code. now rewrite Hc, Hs.
    + rewrite main_logger. unfold closing. now rewrite Hc, Hs.
    + apply Hnone. unfold selected. now rewrite Hc, Hs.
Qed.

Lemma startup_failures_witness :
  exit_status Sample.no_table (Sample.db [Sample.ali]) = Ok 1%Z
  /\ appended Sample.no_table (Sample.db [Sample.ali]) = [].
Proof.
  destruct (startup_failures Sample.no_table (Sample.db [Sample.ali]))
    as (_ & _ & Hq).
  destruct (Hq (Exception "no such table: customers"))
    as (Hexit & _ & Hrows & _); [reflexivity | reflexivity |].
  split; [exact Hexit | exact Hrows].
Defined.

(** ** The date in a message *)

Lemma run_reaches_clock env s before c rest :
  selected env s = (before ++ c :: rest)%list ->
  exists s0 rows0 rows1,
    clock_reads s0 = (S (clock_reads s) + sends before)%nat
    /\ inserts s0 = (inserts s + List.length before)%nat
    /\ appended env s
       = (rows0 ++ (if accepted env (inserts s0)
                    then pending s0 ++ [entry_for env s0 c] else [])
                ++ rows1)%list.
Proof.
  intros Hsel.
  destruct (final_fields env s) as (pre & Hlogs & _).
  cbv zeta in Hlogs. unfold appended. rewrite Hlogs.
  pose proof (run_from_app env (selected env s) before (c :: rest) (begun pre s))
    as Hrun.
  rewrite run_from_cons, <- Hsel in Hrun. rewrite Hrun.
  set (cs := selected env s) in *.
  set (s0 := run_from env cs before (begun pre s)).
  destruct (run_send_logs_app env cs before (begun pre s)) as (rows0 & H0).
  destruct (run_send_logs_app env cs rest (after env cs s0 c)) as (rows1 & H1).
  fold s0 in H0.
  exists s0, rows0, rows1. split; [|split].
  - unfold s0. now rewrite run_clock_reads.
  - unfold s0. now rewrite run_inserts.
  - rewrite H1. cbn [after send_logs]. rewrite H0. cbn [begun send_logs].
    rewrite <- !app_assoc. apply skipn_length_app.
Qed.

(** X12. The date in a message is read anew for every customer that is sent
    to the gateway: the message logged for such a customer carries the UAE
    date of the clock reading that follows the reading used for the
    selection by one reading per earlier send of the run, so it need not be
    the date the customer was selected for. *)
Theorem message_date_is_read_per_customer env s before c rest :
  selected env s = (before ++ c :: rest)%list ->
  skipped c = false ->
  accepted env (inserts s + List.length before) = true ->
  exists status,
    In (mkSendLogEntry (customer_name c) (full_phone_of c)
          (filled_template (customer_name c) (visa_type c) (visa_expiry_date c)
             (today_at env (S (clock_reads s) + sends before)))
          status)
       (appended env s).
Proof.
  intros Hsel Hskip Hacc.
  destruct (run_reaches_clock env s before c rest Hsel)
    as (s0 & rows0 & rows1 & Hclk & Hins & Hrows).
  exists (snd (outcome_of (answer_for env s0 c))).
  rewrite Hrows, Hins, Hacc. unfold entry_for, message_for.
  rewrite Hskip, Hclk. apply in_or_app. right. apply in_or_app. left.
  apply in_or_app. right. now left.
Qed.

Lemma message_date_is_read_per_customer_witness :
  exists status,
    In (mkSendLogEntry "Omar" "+97150-765 4321"
          (filled_template "Omar" "Residence" "2024-03-10"
             (today_at Sample.healthy 2))
          status)
       (appended Sample.healthy (Sample.db [Sample.ali; Sample.omar])).
Proof.
  apply (message_date_is_read_per_customer Sample.healthy
           (Sample.db [Sample.ali; Sample.omar]) [Sample.ali] Sample.omar []);
    reflexivity.
Defined.


(** ** What the logger says about each customer *)

(** X13. Every selected customer leaves a trace in the logger output of the
    run: a skipped one a WARNING that names the customer, any other an INFO
    record with the name and the full phone number the gateway is called
    with. *)
Theorem every_customer_is_reported env s before c rest :
  selected env s = (before ++ c :: rest)%list ->
  In (if skipped c
      then (WARNING, "Skipping " ++ customer_name c ++ ": No phone number")
      else (INFO, "Processing: " ++ customer_name c
                  ++ " (" ++ full_phone_of c ++ ")"))
     (logger (final env s)).
Proof.
  intros Hsel.
  destruct (run_reaches env s before c rest Hsel)
    as (s0 & rows0 & rows1 & recs0 & recs1 & _ & _ & _ & Hlog).
  rewrite Hlog. apply in_or_app. right. apply in_or_app. right.
  apply in_or_app. left. unfold records_for.
  destruct (skipped c); now left.
Qed.

Lemma every_customer_is_reported_witness :
  In (WARNING, "Skipping Noor: No phone number")
     (logger (final Sample.healthy (Sample.db [Sample.ali; Sample.noor]))).
Proof.
  apply (every_customer_is_reported Sample.healthy
           (Sample.db [Sample.ali; Sample.noor]) [Sample.ali] Sample.noor []).
  reflexivity.
Defined.
